(** * Dashboard page: a shallow embedding of [src/components/pages/Dashboard.jsx]

    The page keeps five pieces of React state (stats, recent activities,
    alerts, a loading flag and an error message), loads them from five
    service collaborators joined by [Promise.all], and offers two actions
    on alerts.  The embedding threads the view state and a chronological
    trace of the effects the component performs (state setters, service
    calls, console output, toasts) through a small state-and-exception
    monad; JavaScript exceptions do not roll the state back, so the monad
    returns the world next to the completion. *)

From Stdlib Require Import List ZArith String Bool Arith Lia.
From Stdlib Require Import Sorting.Sorted Sorting.Permutation.
From Stdlib Require Import Floats.PrimFloat.
From Stdlib Require Import DecimalString.
Import ListNotations.

Local Open Scope string_scope.
Local Open Scope list_scope.

(** ** Data model *)

(** Identifiers are JavaScript numbers or strings; [===] never identifies
    a number with a string. *)
Inductive JsId : Type :=
| IdNum (n : Z)
| IdStr (s : string).

Definition strict_eq (a b : JsId) : bool :=
  match a, b with
  | IdNum x, IdNum y => Z.eqb x y
  | IdStr x, IdStr y => String.eqb x y
  | _, _ => false
  end.

(** An optional field is [undefined] when absent; [undefined === id] is
    false for every identifier. *)
Definition strict_eq_opt (a : option JsId) (b : JsId) : bool :=
  match a with
  | Some x => strict_eq x b
  | None => false
  end.

Record Contact : Type := mkContact { contact_Id : JsId }.

(** [value] is a JavaScript number, that is an IEEE 754 double. *)
Record Deal : Type := mkDeal { deal_value : float; deal_stage : string }.

Record Task : Type := mkTask { task_completed : bool }.

(** [timestamp] is the instant [new Date(timestamp)] denotes, in
    milliseconds since the epoch. *)
Record Activity : Type := mkActivity
  { activity_Id : JsId; activity_timestamp : Z }.

Record Alert : Type := mkAlert
  { alert_Id : JsId; alert_type : string; alert_taskId : option JsId }.

Record Stats : Type := mkStats
  { totalContacts : nat;
    totalDeals : nat;
    pipelineValue : float;
    completedTasks : nat }.

(** The five [useState] cells of the component. *)
Record ViewState : Type := mkView
  { stats : Stats;
    recentActivities : list Activity;
    alerts : list Alert;
    isLoading : bool;
    error : string }.

Definition initialStats : Stats := mkStats 0 0 0%float 0.

Definition initialView : ViewState :=
  mkView initialStats [] [] true "".

(** ** Effects *)

Inductive ServiceCall : Type :=
| contactService_getAll
| dealService_getAll
| taskService_getAll
| activityService_getAll
| alertService_getAll
| alertService_dismissAlert (alertId : JsId)
| alertService_completeTask (taskId : JsId).

Inductive Effect : Type :=
| ESetStats (s : Stats)
| ESetRecentActivities (l : list Activity)
| ESetAlerts (l : list Alert)
| ESetIsLoading (b : bool)
| ESetError (msg : string)
| ECall (c : ServiceCall)
| EConsoleError (label reason : string)
| EToastSuccess (msg : string)
| EToastError (msg : string).

(** The view state together with everything done so far, oldest first. *)
Record World : Type := mkWorld { view : ViewState; trace : list Effect }.

Definition initialWorld : World := mkWorld initialView [].

(** How a promise settles.  A rejection carries the tick at which it
    happens, which is what [Promise.all] needs to pick its reason. *)
Inductive outcome (A : Type) : Type :=
| Fulfilled (v : A)
| Rejected (settledAt : nat) (reason : string).
Arguments Fulfilled {A} v.
Arguments Rejected {A} settledAt reason.

Module Eff.

Inductive Completion (A : Type) : Type :=
| Normal (a : A)
| Throw (reason : string).
Arguments Normal {A} a.
Arguments Throw {A} reason.

Definition M (A : Type) : Type := World -> Completion A * World.

Definition ret {A} (a : A) : M A := fun w => (Normal a, w).

Definition bind {A B} (m : M A) (k : A -> M B) : M B :=
  fun w =>
    match m w with
    | (Normal a, w') => k a w'
    | (Throw e, w') => (Throw e, w')
    end.

(** [try { body } catch (err) { handler }] *)
Definition try_catch {A} (body : M A) (handler : string -> M A) : M A :=
  fun w =>
    match body w with
    | (Normal a, w') => (Normal a, w')
    | (Throw e, w') => handler e w'
    end.

(** [try { body } catch (err) { handler } finally { fin }]: [fin] runs
    on every path, and a throw of [fin] replaces the completion. *)
Definition try_catch_finally {A} (body : M A) (handler : string -> M A)
    (fin : M unit) : M A :=
  fun w =>
    match try_catch body handler w with
    | (r, w') =>
        match fin w' with
        | (Normal _, w'') => (r, w'')
        | (Throw e, w'') => (Throw e, w'')
        end
    end.

Definition emit (e : Effect) : M unit :=
  fun w => (Normal tt, mkWorld (view w) (trace w ++ [e])).

Definition update (f : ViewState -> ViewState) : M unit :=
  fun w => (Normal tt, mkWorld (f (view w)) (trace w)).

Definition read : M ViewState := fun w => (Normal (view w), w).

(** [await p]: the value of a fulfilled promise, a throw of the reason
    of a rejected one. *)
Definition await {A} (p : outcome A) : M A :=
  match p with
  | Fulfilled v => ret v
  | Rejected _ reason => fun w => (Throw reason, w)
  end.

Definition exec {A} (m : M A) (w : World) : World := snd (m w).
Definition completion {A} (m : M A) (w : World) : Completion A := fst (m w).

End Eff.
Import Eff.

Declare Scope eff_scope.
Delimit Scope eff_scope with eff.
Notation "x <- m ;; k" := (bind m (fun x => k))
  (at level 61, m at next level, right associativity) : eff_scope.
Notation "m ;; k" := (bind m (fun _ => k))
  (at level 61, right associativity) : eff_scope.
Notation "' pat <- m ;; k" := (bind m (fun x => match x with pat => k end))
  (at level 61, pat pattern, m at next level, right associativity) : eff_scope.
Local Open Scope eff_scope.

(** ** State setters, service calls, console and toasts *)

Definition setStats (s : Stats) : M unit :=
  update (fun v => mkView s (recentActivities v) (alerts v) (isLoading v) (error v)) ;;
  emit (ESetStats s).

Definition setRecentActivities (l : list Activity) : M unit :=
  update (fun v => mkView (stats v) l (alerts v) (isLoading v) (error v)) ;;
  emit (ESetRecentActivities l).

(** [setAlerts(prev => f(prev))]; a plain value is the constant updater. *)
Definition setAlerts (f : list Alert -> list Alert) : M unit :=
  v <- read ;;
  update (fun v => mkView (stats v) (recentActivities v) (f (alerts v)) (isLoading v) (error v)) ;;
  emit (ESetAlerts (f (alerts v))).

Definition setIsLoading (b : bool) : M unit :=
  update (fun v => mkView (stats v) (recentActivities v) (alerts v) b (error v)) ;;
  emit (ESetIsLoading b).

Definition setError (msg : string) : M unit :=
  update (fun v => mkView (stats v) (recentActivities v) (alerts v) (isLoading v) msg) ;;
  emit (ESetError msg).

Definition call (c : ServiceCall) : M unit := emit (ECall c).

Definition console_error (label reason : string) : M unit :=
  emit (EConsoleError label reason).

Definition toast_success (msg : string) : M unit := emit (EToastSuccess msg).
Definition toast_error (msg : string) : M unit := emit (EToastError msg).

(** ** Array methods *)

Section ArrayMethods.
Context {A : Type}.

Definition Array_filter (p : A -> bool) (l : list A) : list A := filter p l.

(** [l.reduce(f, init)] folds from the left. *)
Definition Array_reduce {B} (f : B -> A -> B) (init : B) (l : list A) : B :=
  fold_left f l init.

(** [l.slice(0, n)] *)
Definition Array_slice0 (n : nat) (l : list A) : list A := firstn n l.

(** [l.sort(cmp)].  The standard asks for a stable sort and leaves the
    algorithm open; for a consistent comparator the result is the same
    whichever is used, and a stable insertion sort computes it.  An
    element goes before the ones it does not compare greater than. *)
Fixpoint sort_insert (cmp : A -> A -> Z) (x : A) (l : list A) : list A :=
  match l with
  | [] => [x]
  | y :: l' =>
      if (cmp x y <=? 0)%Z then x :: y :: l' else y :: sort_insert cmp x l'
  end.

Definition Array_sort (cmp : A -> A -> Z) (l : list A) : list A :=
  fold_right (sort_insert cmp) [] l.

End ArrayMethods.

(** [arr.includes(s)] on an array of strings. *)
Definition Array_includes (arr : list string) (s : string) : bool :=
  existsb (String.eqb s) arr.

(** ** [Promise.all] over the five reads *)

Record Reads : Type := mkReads
  { contacts_read : outcome (list Contact);
    deals_read : outcome (list Deal);
    tasks_read : outcome (list Task);
    activities_read : outcome (list Activity);
    alerts_read : outcome (list Alert) }.

(** Joining two promises: fulfilled when both are, rejected with the
    reason of the rejection that settles first (the left one on a tie). *)
Definition join {A B} (p : outcome A) (q : outcome B) : outcome (A * B) :=
  match p, q with
  | Fulfilled a, Fulfilled b => Fulfilled (a, b)
  | Rejected t e, Fulfilled _ => Rejected t e
  | Fulfilled _, Rejected t e => Rejected t e
  | Rejected t1 e1, Rejected t2 e2 =>
      if (t1 <=? t2)%nat then Rejected t1 e1 else Rejected t2 e2
  end.

Definition Promise_all (rs : Reads)
  : outcome (list Contact * list Deal * list Task * list Activity * list Alert) :=
  join (join (join (join (contacts_read rs) (deals_read rs)) (tasks_read rs))
             (activities_read rs))
       (alerts_read rs).

(** ** The component *)

(** The part of [loadDashboardData] that runs when it is called: the two
    setters and the five [getAll()] calls that build the argument of
    [Promise.all].  The function then suspends at [await]. *)
Definition loadDashboardData_call : M unit :=
  setIsLoading true ;;
  setError "" ;;
  call contactService_getAll ;;
  call dealService_getAll ;;
  call taskService_getAll ;;
  call activityService_getAll ;;
  call alertService_getAll.

(** The rest of [loadDashboardData], run when the join has settled. *)
Definition loadDashboardData_resume (rs : Reads) : M unit :=
  try_catch_finally
    ('(contacts, deals, tasks, activities, alertsData) <- await (Promise_all rs) ;;
     let activeDeals :=
       Array_filter (fun deal => negb (Array_includes ["Won"; "Lost"] (deal_stage deal))) deals in
     let pipelineValue :=
       Array_reduce (fun sum deal => (sum + deal_value deal)%float) 0%float activeDeals in
     let completedTasks :=
       List.length (Array_filter (fun task => task_completed task) tasks) in
     setStats (mkStats (List.length contacts) (List.length activeDeals)
                       pipelineValue completedTasks) ;;
     let sortedActivities :=
       Array_slice0 10
         (Array_sort (fun a b => (activity_timestamp b - activity_timestamp a)%Z)
                     activities) in
     setRecentActivities sortedActivities ;;
     setAlerts (fun _ => alertsData))
    (fun err =>
       setError "Failed to load dashboard data" ;;
       console_error "Dashboard error:" err)
    (setIsLoading false).

(** One whole run of the loader, nothing else happening in between. *)
Definition loadDashboardData (rs : Reads) : M unit :=
  loadDashboardData_call ;; loadDashboardData_resume rs.

(** [handleDismissAlert(alertId)], with the way its service call settles. *)
Definition handleDismissAlert (alertId : JsId) (settled : outcome unit) : M unit :=
  try_catch
    (call (alertService_dismissAlert alertId) ;;
     await settled ;;
     setAlerts (Array_filter (fun alert => negb (strict_eq (alert_Id alert) alertId))) ;;
     toast_success "Alert dismissed")
    (fun err =>
       console_error "Dismiss alert error:" err ;;
       toast_error "Failed to dismiss alert").

(** [handleCompleteTask(taskId)].  The call of [loadDashboardData()] is
    not awaited: its synchronous part runs here and the toast follows. *)
Definition handleCompleteTask (taskId : JsId) (settled : outcome unit) : M unit :=
  try_catch
    (call (alertService_completeTask taskId) ;;
     await settled ;;
     setAlerts (Array_filter (fun alert => negb (strict_eq_opt (alert_taskId alert) taskId))) ;;
     loadDashboardData_call ;;
     toast_success "Task completed successfully")
    (fun err =>
       console_error "Complete task error:" err ;;
       toast_error "Failed to complete task").

(** ** Rendering *)

(** What the component returns: one of the two placeholders or the page.
    The props that are handlers hold the functions themselves. *)
Inductive Rendered : Type :=
| Loading
| Error (message : string) (onRetry : Reads -> M unit)
| Page (s : Stats) (activities : list Activity) (banner : list Alert)
       (onDismiss onCompleteTask : JsId -> outcome unit -> M unit).

(** A non-empty string is truthy. *)
Definition truthy (s : string) : bool := negb (String.eqb s "").

Definition render (v : ViewState) : Rendered :=
  if isLoading v then Loading
  else if truthy (error v) then Error (error v) loadDashboardData
  else Page (stats v) (recentActivities v) (alerts v)
            handleDismissAlert handleCompleteTask.

(** ** What can happen to a mounted component

    Each item is one uninterrupted run of JavaScript.  A load is two of
    them, the call and the resumption; the two actions touch the view
    only after their service call has settled, so they are one item. *)
Inductive Op : Type :=
| OpLoadCall
| OpLoadResume (rs : Reads)
| OpDismissAlert (alertId : JsId) (settled : outcome unit)
| OpCompleteTask (taskId : JsId) (settled : outcome unit).

Definition run_op (w : World) (op : Op) : World :=
  match op with
  | OpLoadCall => exec loadDashboardData_call w
  | OpLoadResume rs => exec (loadDashboardData_resume rs) w
  | OpDismissAlert alertId settled => exec (handleDismissAlert alertId settled) w
  | OpCompleteTask taskId settled => exec (handleCompleteTask taskId settled) w
  end.

Definition run_ops (ops : list Op) (w : World) : World :=
  fold_left run_op ops w.



(** ** The quantities the page is meant to show

    These follow the wording of the specification and are compared below
    with what the loader computes. *)

(** A deal is active when its stage is neither "Won" nor "Lost". *)
Definition active (d : Deal) : Prop :=
  deal_stage d <> "Won" /\ deal_stage d <> "Lost".

Definition active_dec (d : Deal) : {active d} + {~ active d}.
Proof.
  unfold active.
  destruct (string_dec (deal_stage d) "Won") as [e1 | n1];
    destruct (string_dec (deal_stage d) "Lost") as [e2 | n2]; tauto.
Defined.

(** Number of active deals. *)
Fixpoint spec_active_count (deals : list Deal) : nat :=
  match deals with
  | [] => 0
  | d :: rest =>
      if active_dec d then S (spec_active_count rest) else spec_active_count rest
  end.

(** Sum of the values of the active deals.  A sum of JavaScript numbers is
    taken in double precision, one addition after the other: the running
    sum takes in the value of each active deal in the order of the list
    and passes over the others. *)
Fixpoint add_active_values (sum : float) (deals : list Deal) : float :=
  match deals with
  | [] => sum
  | d :: rest =>
      if active_dec d then add_active_values (sum + deal_value d)%float rest
      else add_active_values sum rest
  end.

Definition spec_pipeline_value (deals : list Deal) : float :=
  add_active_values 0%float deals.

(** Number of tasks whose completed flag is true. *)
Definition spec_completed_count (tasks : list Task) : nat :=
  count_occ bool_dec (map task_completed tasks) true.

(** A later activity has the greater timestamp. *)
Definition later (a b : Activity) : Prop :=
  (activity_timestamp b < activity_timestamp a)%Z.

(** The comparator the loader hands to [sort]. *)
Definition by_recency (a b : Activity) : Z :=
  (activity_timestamp b - activity_timestamp a)%Z.

Definition not_earlier (a b : Activity) : Prop :=
  (activity_timestamp b <= activity_timestamp a)%Z.

(** A list with the entries that satisfy [P] left out, the others in
    place and in order. *)
Fixpoint leave_out {A} (P : A -> Prop) (P_dec : forall a, {P a} + {~ P a})
    (l : list A) : list A :=
  match l with
  | [] => []
  | a :: rest =>
      if P_dec a then leave_out P P_dec rest else a :: leave_out P P_dec rest
  end.

Definition JsId_eq_dec (a b : JsId) : {a = b} + {a <> b}.
Proof. decide equality; [apply Z.eq_dec | apply string_dec]. Defined.

Definition has_Id (x : JsId) (a : Alert) : Prop := alert_Id a = x.

Definition has_Id_dec (x : JsId) (a : Alert) : {has_Id x a} + {~ has_Id x a} :=
  JsId_eq_dec (alert_Id a) x.

Definition refers_to_task (x : JsId) (a : Alert) : Prop := alert_taskId a = Some x.

Definition refers_to_task_dec (x : JsId) (a : Alert)
  : {refers_to_task x a} + {~ refers_to_task x a}.
Proof. unfold refers_to_task. decide equality. apply JsId_eq_dec. Defined.

(** How often a service call occurs in a trace. *)
Definition is_call (c : ServiceCall) (e : Effect) : bool :=
  match e, c with
  | ECall contactService_getAll, contactService_getAll => true
  | ECall dealService_getAll, dealService_getAll => true
  | ECall taskService_getAll, taskService_getAll => true
  | ECall activityService_getAll, activityService_getAll => true
  | ECall alertService_getAll, alertService_getAll => true
  | ECall (alertService_dismissAlert x), alertService_dismissAlert y => strict_eq x y
  | ECall (alertService_completeTask x), alertService_completeTask y => strict_eq x y
  | _, _ => false
  end.

Definition calls (c : ServiceCall) (tr : list Effect) : nat :=
  List.length (filter (is_call c) tr).

(** The five reads, all fulfilled. *)
Definition fulfilled (contacts : list Contact) (deals : list Deal)
    (tasks : list Task) (activities : list Activity) (alertsData : list Alert)
  : Reads :=
  mkReads (Fulfilled contacts) (Fulfilled deals) (Fulfilled tasks)
          (Fulfilled activities) (Fulfilled alertsData).

Definition is_rejected {A} (p : outcome A) : bool :=
  match p with
  | Fulfilled _ => false
  | Rejected _ _ => true
  end.

Definition some_read_rejects (rs : Reads) : bool :=
  is_rejected (contacts_read rs) || is_rejected (deals_read rs)
  || is_rejected (tasks_read rs) || is_rejected (activities_read rs)
  || is_rejected (alerts_read rs).

(** The five reads, in the order the loader issues them, and as they
    appear in a trace. *)
Definition read_calls : list ServiceCall :=
  [contactService_getAll; dealService_getAll; taskService_getAll;
   activityService_getAll; alertService_getAll].

Definition five_reads : list Effect := map ECall read_calls.

(** What a failed load adds to the trace once the join has rejected. *)
Definition failure_suffix (reason : string) : list Effect :=
  [ESetError "Failed to load dashboard data";
   EConsoleError "Dashboard error:" reason;
   ESetIsLoading false].

(** ** Sample data *)

Definition sample_deals : list Deal :=
  [mkDeal 100%float "Open"; mkDeal 50%float "Won"; mkDeal 30%float "Negotiation"].

Definition sample_activities : list Activity :=
  map (fun n => mkActivity (IdNum (Z.of_nat n)) (Z.of_nat ((n * 7) mod 13)))
      (seq 1 12).

Definition sample_alerts : list Alert :=
  [mkAlert (IdNum 1) "task_overdue" (Some (IdNum 7));
   mkAlert (IdNum 2) "contact_follow_up" None;
   mkAlert (IdNum 3) "task_due_today" (Some (IdNum 7));
   mkAlert (IdStr "1") "task_due_today" (Some (IdNum 8))].

Definition sample_view : ViewState :=
  mkView (mkStats 4 2 130%float 1) (firstn 3 sample_activities) sample_alerts
         false "".

Definition sample_world : World := mkWorld sample_view [].

(** ** The body of the page *)

(** The key React keeps for [key={id}] is the string ['' + id]: a string
    as it is, a number through the number-to-string conversion of the
    language, which is taken as a parameter. *)
Definition key_of (Number_toString : Z -> string) (id : JsId) : string :=
  match id with
  | IdStr s => s
  | IdNum n => Number_toString n
  end.

(** The activity feed: the placeholder when there is nothing to show, or
    one item per recent activity, keyed by the activity's Id. *)
Inductive Feed : Type :=
| NoRecentActivity
| ActivityItems (items : list (string * Activity)).

Definition activityFeed (Number_toString : Z -> string)
    (recentActivities : list Activity) : Feed :=
  if (0 <? List.length recentActivities)%nat
  then ActivityItems
         (map (fun activity => (key_of Number_toString (activity_Id activity), activity))
              recentActivities)
  else NoRecentActivity.

(** A number-to-string conversion for the examples: decimal digits, as
    the language prints integers of ordinary size. *)
Definition decimal (n : Z) : string := NilZero.string_of_int (Z.to_int n).

(** [alerts.filter(a => a.type === ty).length] *)
Definition focusCount (ty : string) (alerts : list Alert) : nat :=
  List.length (Array_filter (fun a => String.eqb (alert_type a) ty) alerts).

(** The three lines of the "Today's Focus" card. *)
Record Focus : Type := mkFocus
  { overdueTasks : nat; followUpsDue : nat; tasksDueToday : nat }.

Definition todaysFocus (alerts : list Alert) : Focus :=
  mkFocus (focusCount "task_overdue" alerts)
          (focusCount "contact_follow_up" alerts)
          (focusCount "task_due_today" alerts).

(** ** Measures on traces and operations *)

Definition is_toast (e : Effect) : bool :=
  match e with
  | EToastSuccess _ | EToastError _ => true
  | _ => false
  end.

Definition toasts (tr : list Effect) : nat := List.length (filter is_toast tr).

Definition is_console_error (e : Effect) : bool :=
  match e with
  | EConsoleError _ _ => true
  | _ => false
  end.

Definition console_errors (tr : list Effect) : nat :=
  List.length (filter is_console_error tr).

(** The two actions, as opposed to the two halves of a load. *)
Definition op_is_action (op : Op) : bool :=
  match op with
  | OpDismissAlert _ _ | OpCompleteTask _ _ => true
  | OpLoadCall | OpLoadResume _ => false
  end.

(** The operations that take a failure path. *)
Definition op_fails (op : Op) : bool :=
  match op with
  | OpLoadCall => false
  | OpLoadResume rs => some_read_rejects rs
  | OpDismissAlert _ settled | OpCompleteTask _ settled => is_rejected settled
  end.

(** The operations in which [loadDashboardData] is called. *)
Definition op_calls_loader (op : Op) : bool :=
  match op with
  | OpLoadCall => true
  | OpCompleteTask _ settled => negb (is_rejected settled)
  | OpLoadResume _ | OpDismissAlert _ _ => false
  end.

Definition count_ops (p : Op -> bool) (ops : list Op) : nat :=
  List.length (filter p ops).

(** The rejections among the five reads, with the tick of each. *)
Definition rejection {A} (p : outcome A) : list (nat * string) :=
  match p with
  | Fulfilled _ => []
  | Rejected t reason => [(t, reason)]
  end.

Definition rejections (rs : Reads) : list (nat * string) :=
  rejection (contacts_read rs) ++ rejection (deals_read rs)
  ++ rejection (tasks_read rs) ++ rejection (activities_read rs)
  ++ rejection (alerts_read rs).

(** [p] settles as the rejections [l] say: fulfilled when there is none,
    else rejected with one of them that no other precedes. *)
Definition settles_as {A} (p : outcome A) (l : list (nat * string)) : Prop :=
  match p with
  | Fulfilled _ => l = []
  | Rejected t reason =>
      In (t, reason) l /\ forall x, In x l -> t <= fst x
  end.

(** The alert types the "Today's Focus" card counts. *)
Definition focus_types : list string :=
  ["task_overdue"; "contact_follow_up"; "task_due_today"].

(** The stats a successful load computes from what it read. *)
Definition stats_of (contacts : list Contact) (deals : list Deal)
    (tasks : list Task) : Stats :=
  mkStats (List.length contacts) (spec_active_count deals)
          (spec_pipeline_value deals) (spec_completed_count tasks).

(** The activities a successful load keeps. *)
Definition recent_of (activities : list Activity) : list Activity :=
  firstn 10 (Array_sort by_recency activities).

(** The activities with a given timestamp, in the order of the list. *)
Definition at_instant (t : Z) (l : list Activity) : list Activity :=
  filter (fun a => Z.eqb (activity_timestamp a) t) l.

(** ** The loader's statistics *)

Lemma includes_terminal_stage (d : Deal) :
  Array_includes ["Won"; "Lost"] (deal_stage d) = false <-> active d.
Proof.
  unfold Array_includes, active. simpl.
  rewrite orb_false_r, orb_false_iff, !String.eqb_neq. tauto.
Qed.

Lemma active_filter_step (d : Deal) :
  negb (Array_includes ["Won"; "Lost"] (deal_stage d)) =
  if active_dec d then true else false.
Proof.
  destruct (active_dec d) as [Ha | Hn].
  - apply includes_terminal_stage in Ha. now rewrite Ha.
  - destruct (Array_includes ["Won"; "Lost"] (deal_stage d)) eqn:E; [reflexivity|].
    apply includes_terminal_stage in E. contradiction.
Qed.

Lemma add_active_values_reduce (deals : list Deal) (sum : float) :
  fold_left (fun sum deal => (sum + deal_value deal)%float)
    (filter (fun deal => negb (Array_includes ["Won"; "Lost"] (deal_stage deal))) deals)
    sum
  = add_active_values sum deals.
Proof.
  revert sum. induction deals as [| d rest IH]; intro sum; [reflexivity|].
  cbn [filter add_active_values]. rewrite active_filter_step.
  destruct (active_dec d); cbn [fold_left]; apply IH.
Qed.

Lemma active_count_filter (deals : list Deal) :
  List.length
    (Array_filter (fun deal => negb (Array_includes ["Won"; "Lost"] (deal_stage deal)))
                  deals)
  = spec_active_count deals.
Proof.
  unfold Array_filter.
  induction deals as [| d rest IH]; [reflexivity|].
  cbn [filter spec_active_count]. rewrite active_filter_step.
  destruct (active_dec d); cbn [List.length]; now rewrite IH.
Qed.

Lemma pipeline_value_reduce (deals : list Deal) :
  Array_reduce (fun sum deal => (sum + deal_value deal)%float) 0%float
    (Array_filter (fun deal => negb (Array_includes ["Won"; "Lost"] (deal_stage deal)))
                  deals)
  = spec_pipeline_value deals.
Proof.
  unfold Array_reduce, Array_filter, spec_pipeline_value.
  apply add_active_values_reduce.
Qed.

(** The sum is the rounded one: the additions are those of doubles, so
    small values are absorbed by a large running sum and decimal fractions
    carry their binary error. *)
Lemma pipeline_value_is_rounded :
  spec_pipeline_value
    [mkDeal 0x1p53%float "Open"; mkDeal 1%float "Open"; mkDeal 1%float "Open"]
  = 0x1p53%float /\
  spec_pipeline_value
    [mkDeal 0x1.999999999999ap-4%float "Open"; mkDeal 5%float "Lost";
     mkDeal 0x1.999999999999ap-3%float "Open"]
  = 0x1.3333333333334p-2%float.
Proof. split; reflexivity. Qed.

Lemma completed_count_filter (tasks : list Task) :
  List.length (Array_filter (fun task => task_completed task) tasks)
  = spec_completed_count tasks.
Proof.
  unfold Array_filter, spec_completed_count.
  induction tasks as [| t rest IH]; [reflexivity|].
  cbn [filter map count_occ].
  destruct (task_completed t); destruct (bool_dec _ _); try congruence;
    cbn [List.length]; now rewrite IH.
Qed.

(** What a successful load leaves in the stats cell. *)
Lemma load_fulfilled_stats w contacts deals tasks activities alertsData :
  stats (view (exec (loadDashboardData
                       (fulfilled contacts deals tasks activities alertsData)) w))
  = mkStats (List.length contacts) (spec_active_count deals)
            (spec_pipeline_value deals) (spec_completed_count tasks).
Proof.
  cbn. now rewrite active_count_filter, pipeline_value_reduce, completed_count_filter.
Qed.

(** C1: after a load whose five reads are fulfilled, the active-deal count
    in the stats is the number of deals whose stage is neither "Won" nor
    "Lost" and the pipeline value is the sum of the values of those deals,
    a sum of doubles taken in the order of the list; for the three sample
    deals (100 Open, 50 Won, 30 Negotiation) they are 2 and 130. *)
Theorem C1_active_deals_and_pipeline_value :
  (forall w contacts deals tasks activities alertsData,
      let w' := exec (loadDashboardData
                        (fulfilled contacts deals tasks activities alertsData)) w in
      totalDeals (stats (view w')) = spec_active_count deals /\
      pipelineValue (stats (view w')) = spec_pipeline_value deals) /\
  (forall w contacts tasks activities alertsData,
      let w' := exec (loadDashboardData
                        (fulfilled contacts sample_deals tasks activities alertsData)) w in
      totalDeals (stats (view w')) = 2 /\
      pipelineValue (stats (view w')) = 130%float).
Proof.
  split; intros; subst w'; rewrite load_fulfilled_stats; split; reflexivity.
Qed.

(** C6: after a load whose five reads are fulfilled, the completed-task
    count in the stats is the number of tasks whose completed flag is
    true. *)
Theorem C6_completed_task_count :
  forall w contacts deals tasks activities alertsData,
    completedTasks
      (stats (view (exec (loadDashboardData
                            (fulfilled contacts deals tasks activities alertsData)) w)))
    = spec_completed_count tasks.
Proof.
  intros. now rewrite load_fulfilled_stats.
Qed.

(** ** The recent activities *)

Section SortFacts.
Context {A : Type} (cmp : A -> A -> Z).

Lemma sort_insert_perm (x : A) (l : list A) :
  Permutation (x :: l) (sort_insert cmp x l).
Proof.
  induction l as [| y l IH]; cbn [sort_insert]; [reflexivity|].
  destruct (cmp x y <=? 0)%Z; [reflexivity|].
  rewrite perm_swap. now constructor.
Qed.

Lemma Array_sort_perm (l : list A) : Permutation l (Array_sort cmp l).
Proof.
  unfold Array_sort.
  induction l as [| x l IH]; cbn [fold_right]; [constructor|].
  rewrite <- sort_insert_perm. now constructor.
Qed.

Lemma Array_sort_length (l : list A) :
  List.length (Array_sort cmp l) = List.length l.
Proof. symmetry. apply Permutation_length, Array_sort_perm. Qed.

End SortFacts.

Lemma sort_insert_sorted (x : Activity) (l : list Activity) :
  StronglySorted not_earlier l ->
  StronglySorted not_earlier (sort_insert by_recency x l).
Proof.
  induction 1 as [| y l Hl IH Hy]; cbn [sort_insert].
  - repeat constructor.
  - destruct (by_recency x y <=? 0)%Z eqn:E.
    + apply Z.leb_le in E. unfold by_recency in E.
      constructor; [now constructor|].
      constructor; [unfold not_earlier; lia|].
      eapply Forall_impl; [|exact Hy].
      unfold not_earlier. intros; lia.
    + apply Z.leb_gt in E. unfold by_recency in E.
      constructor; [exact IH|].
      eapply Permutation_Forall; [apply sort_insert_perm|].
      constructor; [unfold not_earlier; lia | exact Hy].
Qed.

Lemma Array_sort_sorted (l : list Activity) :
  StronglySorted not_earlier (Array_sort by_recency l).
Proof.
  unfold Array_sort.
  induction l as [| x l IH]; cbn [fold_right]; [constructor|].
  now apply sort_insert_sorted.
Qed.

(** With no timestamp repeated, a list in non-increasing order is in
    decreasing order. *)
Lemma sorted_distinct_strict (l : list Activity) :
  NoDup (map activity_timestamp l) ->
  StronglySorted not_earlier l -> StronglySorted later l.
Proof.
  induction l as [| x l IH]; intros Hnd Hs; [constructor|].
  cbn [map] in Hnd. apply NoDup_cons_iff in Hnd as [Hx Hnd].
  apply StronglySorted_inv in Hs as [Hs Hall].
  constructor; [now apply IH|].
  rewrite Forall_forall in *. intros y Hy.
  specialize (Hall y Hy). unfold later, not_earlier in *.
  assert (activity_timestamp y <> activity_timestamp x).
  { intro E. apply Hx. rewrite <- E. now apply in_map. }
  lia.
Qed.

Section SortedSplit.
Context {A : Type} (R : A -> A -> Prop).

Lemma StronglySorted_app_inv (l1 l2 : list A) :
  StronglySorted R (l1 ++ l2) ->
  StronglySorted R l1 /\ (forall a b, In a l1 -> In b l2 -> R a b).
Proof.
  induction l1 as [| x l1 IH]; cbn [app]; intro Hs.
  - split; [constructor | intros a b []].
  - apply StronglySorted_inv in Hs as [Hs Hall].
    destruct (IH Hs) as [H1 H2].
    rewrite Forall_app in Hall. destruct Hall as [Ha1 Ha2].
    split; [now constructor|].
    intros a b [<- | Ha] Hb; [|now apply H2].
    rewrite Forall_forall in Ha2. now apply Ha2.
Qed.

End SortedSplit.

(** What a successful load leaves in the recent-activities cell. *)
Lemma load_fulfilled_recentActivities w contacts deals tasks activities alertsData :
  recentActivities
    (view (exec (loadDashboardData
                   (fulfilled contacts deals tasks activities alertsData)) w))
  = firstn 10 (Array_sort by_recency activities).
Proof. reflexivity. Qed.

(** C2: when no two of the activities read have the same timestamp, the
    recent activities set by the loader are min(N,10) in number, in
    decreasing order of timestamp, and are the latest ones: the
    activities read are these followed, up to order, by others that are
    all earlier than each of them. *)
Theorem C2_recent_activities_top_ten :
  forall w contacts deals tasks activities alertsData,
    NoDup (map activity_timestamp activities) ->
    let recent :=
      recentActivities
        (view (exec (loadDashboardData
                       (fulfilled contacts deals tasks activities alertsData)) w)) in
    List.length recent = Nat.min (List.length activities) 10 /\
    StronglySorted later recent /\
    exists others,
      Permutation activities (recent ++ others) /\
      forall a b, In a recent -> In b others -> later a b.
Proof.
  intros w contacts deals tasks activities alertsData Hnd recent.
  subst recent. rewrite load_fulfilled_recentActivities.
  set (sorted := Array_sort by_recency activities).
  assert (Hperm : Permutation activities sorted) by apply Array_sort_perm.
  assert (Hstrict : StronglySorted later sorted).
  { apply sorted_distinct_strict; [|apply Array_sort_sorted].
    eapply Permutation_NoDup; [|exact Hnd].
    now apply Permutation_map. }
  rewrite <- (firstn_skipn 10 sorted) in Hstrict.
  apply StronglySorted_app_inv in Hstrict as [Hs Hlt].
  split; [|split; [exact Hs|]].
  - rewrite length_firstn. subst sorted. rewrite Array_sort_length. lia.
  - exists (skipn 10 sorted). split; [|exact Hlt].
    now rewrite firstn_skipn.
Qed.

Lemma C2_recent_activities_top_ten_witness :
  NoDup (map activity_timestamp sample_activities) /\
  let recent :=
    recentActivities
      (view (exec (loadDashboardData
                     (fulfilled [] sample_deals [] sample_activities [])) initialWorld)) in
  List.length recent = Nat.min (List.length sample_activities) 10 /\
  StronglySorted later recent /\
  exists others,
    Permutation sample_activities (recent ++ others) /\
    forall a b, In a recent -> In b others -> later a b.
Proof.
  assert (H : NoDup (map activity_timestamp sample_activities)).
  { vm_compute. repeat (constructor; [cbn; intuition congruence|]). constructor. }
  split; [exact H|].
  exact (C2_recent_activities_top_ten initialWorld [] sample_deals [] sample_activities [] H).
Defined.

(** ** The two paths of the loader *)

Ltac flatten_trace := rewrite <- ?app_assoc; cbn [app].

(** Runs a computation of the component on the world of the goal. *)
Ltac run_eff :=
  unfold toast_success, toast_error, console_error, call, emit; cbn;
  flatten_trace.

Lemma strict_eq_spec (a b : JsId) : strict_eq a b = true <-> a = b.
Proof.
  destruct a as [x | x], b as [y | y]; cbn [strict_eq].
  - rewrite Z.eqb_eq. split; congruence.
  - split; discriminate.
  - split; discriminate.
  - rewrite String.eqb_eq. split; congruence.
Qed.

Lemma strict_eq_opt_spec (a : option JsId) (b : JsId) :
  strict_eq_opt a b = true <-> a = Some b.
Proof.
  destruct a as [x |]; cbn [strict_eq_opt].
  - rewrite strict_eq_spec. split; congruence.
  - split; discriminate.
Qed.

Lemma join_rejected_l {A B} (p : outcome A) (q : outcome B) :
  is_rejected p = true -> is_rejected (join p q) = true.
Proof.
  destruct p, q; cbn; try discriminate; try reflexivity.
  now destruct (_ <=? _)%nat.
Qed.

Lemma join_rejected_r {A B} (p : outcome A) (q : outcome B) :
  is_rejected q = true -> is_rejected (join p q) = true.
Proof.
  destruct p, q; cbn; try discriminate; try reflexivity.
  now destruct (_ <=? _)%nat.
Qed.

Lemma Promise_all_rejected (rs : Reads) :
  some_read_rejects rs = true ->
  exists t reason, Promise_all rs = Rejected t reason.
Proof.
  intro H.
  assert (R : is_rejected (Promise_all rs) = true).
  { unfold some_read_rejects in H. unfold Promise_all.
    rewrite !orb_true_iff in H.
    destruct H as [[[[H | H] | H] | H] | H];
      auto using join_rejected_l, join_rejected_r. }
  destruct (Promise_all rs) as [v | t reason]; [discriminate|].
  now exists t, reason.
Qed.

Lemma Promise_all_fulfilled (rs : Reads) :
  some_read_rejects rs = false ->
  exists contacts deals tasks activities alertsData,
    rs = fulfilled contacts deals tasks activities alertsData.
Proof.
  destruct rs as [[c | ? ?] [d | ? ?] [t | ? ?] [a | ? ?] [al | ? ?]];
    cbn; try discriminate.
  intros _. now exists c, d, t, a, al.
Qed.

(** The resumption after a rejected join: only the error message and the
    loading flag are written. *)
Lemma resume_rejected (rs : Reads) (t : nat) (reason : string) (w : World) :
  Promise_all rs = Rejected t reason ->
  loadDashboardData_resume rs w =
  (Normal tt,
   mkWorld (mkView (stats (view w)) (recentActivities (view w)) (alerts (view w))
                   false "Failed to load dashboard data")
           (trace w ++ failure_suffix reason)).
Proof.
  intro H. unfold loadDashboardData_resume, try_catch_finally, try_catch, bind.
  rewrite H. cbn. flatten_trace. reflexivity.
Qed.

(** The resumption after a fulfilled join. *)
Lemma resume_fulfilled contacts deals tasks activities alertsData (w : World) :
  loadDashboardData_resume
    (fulfilled contacts deals tasks activities alertsData) w =
  let s :=
    mkStats (List.length contacts) (spec_active_count deals)
            (spec_pipeline_value deals) (spec_completed_count tasks) in
  let recent := firstn 10 (Array_sort by_recency activities) in
  (Normal tt,
   mkWorld (mkView s recent alertsData false (error (view w)))
           (trace w ++ [ESetStats s; ESetRecentActivities recent;
                        ESetAlerts alertsData; ESetIsLoading false])).
Proof.
  cbn. flatten_trace.
  now rewrite active_count_filter, pipeline_value_reduce, completed_count_filter.
Qed.

Lemma call_runs (w : World) :
  loadDashboardData_call w =
  (Normal tt,
   mkWorld (mkView (stats (view w)) (recentActivities (view w)) (alerts (view w))
                   true "")
           (trace w ++ ESetIsLoading true :: ESetError "" :: five_reads)).
Proof. unfold loadDashboardData_call. run_eff. reflexivity. Qed.

Lemma load_steps (rs : Reads) (w : World) :
  loadDashboardData rs w = loadDashboardData_resume rs (exec loadDashboardData_call w).
Proof.
  unfold loadDashboardData, exec. unfold bind at 1. now rewrite call_runs.
Qed.

(** C3: when one of the five reads rejects, a run of the loader leaves
    stats, recent activities and alerts as they were, sets the one fixed
    error message whatever the reason, writes nothing but the error and
    the loading flag after the reads, and the page renders the error view
    whose retry is the loader itself, which issues the five reads again. *)
Theorem C3_failed_read_error_state :
  forall rs w,
    some_read_rejects rs = true ->
    let w' := exec (loadDashboardData rs) w in
    stats (view w') = stats (view w) /\
    recentActivities (view w') = recentActivities (view w) /\
    alerts (view w') = alerts (view w) /\
    error (view w') = "Failed to load dashboard data" /\
    (exists reason,
        trace w' = trace w ++ ESetIsLoading true :: ESetError "" :: five_reads
                           ++ failure_suffix reason) /\
    render (view w') = Error "Failed to load dashboard data" loadDashboardData /\
    forall rs', exists rest,
        trace (exec (loadDashboardData rs') w') =
        trace w' ++ ESetIsLoading true :: ESetError "" :: five_reads ++ rest.
Proof.
  intros rs w H w'.
  destruct (Promise_all_rejected rs H) as (t & reason & Hrej).
  assert (Hw' : w' =
    mkWorld (mkView (stats (view w)) (recentActivities (view w)) (alerts (view w))
                    false "Failed to load dashboard data")
            (trace w ++ ESetIsLoading true :: ESetError "" :: five_reads
                     ++ failure_suffix reason)).
  { subst w'. unfold exec at 1. rewrite load_steps.
    rewrite (resume_rejected rs t reason _ Hrej).
    unfold exec. rewrite call_runs. cbn [snd view trace stats recentActivities alerts].
    f_equal. flatten_trace. reflexivity. }
  repeat split; try (rewrite Hw'; reflexivity).
  - exists reason. now rewrite Hw'.
  - intro rs'. unfold exec at 1. rewrite load_steps.
    destruct (some_read_rejects rs') eqn:E.
    + destruct (Promise_all_rejected rs' E) as (t' & reason' & Hrej').
      rewrite (resume_rejected rs' t' reason' _ Hrej').
      unfold exec. rewrite call_runs. cbn [snd view trace].
      exists (failure_suffix reason'). flatten_trace. reflexivity.
    + destruct (Promise_all_fulfilled rs' E) as (c & d & tk & a & al & ->).
      rewrite resume_fulfilled. unfold exec. rewrite call_runs.
      cbn [snd view trace]. eexists. flatten_trace. reflexivity.
Qed.

Lemma C3_failed_read_error_state_witness :
  let rs := mkReads (Fulfilled [mkContact (IdNum 1)]) (Rejected 3 "Network Error")
                    (Fulfilled [mkTask true]) (Fulfilled sample_activities)
                    (Fulfilled []) in
  some_read_rejects rs = true /\
  let w' := exec (loadDashboardData rs) sample_world in
  stats (view w') = stats (view sample_world) /\
  recentActivities (view w') = recentActivities (view sample_world) /\
  alerts (view w') = alerts (view sample_world) /\
  error (view w') = "Failed to load dashboard data" /\
  (exists reason,
      trace w' = trace sample_world ++ ESetIsLoading true :: ESetError "" :: five_reads
                                    ++ failure_suffix reason) /\
  render (view w') = Error "Failed to load dashboard data" loadDashboardData /\
  forall rs', exists rest,
      trace (exec (loadDashboardData rs') w') =
      trace w' ++ ESetIsLoading true :: ESetError "" :: five_reads ++ rest.
Proof.
  intro rs. split; [reflexivity|].
  exact (C3_failed_read_error_state rs sample_world eq_refl).
Defined.

(** ** The loading flag *)

Lemma resume_clears_loading (rs : Reads) (w : World) :
  isLoading (view (exec (loadDashboardData_resume rs) w)) = false /\
  exists mid,
    trace (exec (loadDashboardData_resume rs) w) =
    trace w ++ mid ++ [ESetIsLoading false] /\
    forall c, calls c mid = 0.
Proof.
  unfold exec. destruct (some_read_rejects rs) eqn:E.
  - destruct (Promise_all_rejected rs E) as (t & reason & Hrej).
    rewrite (resume_rejected rs t reason w Hrej). cbn [snd view trace isLoading].
    split; [reflexivity|].
    exists [ESetError "Failed to load dashboard data";
            EConsoleError "Dashboard error:" reason].
    split; [reflexivity | intro c; reflexivity].
  - destruct (Promise_all_fulfilled rs E) as (c & d & tk & a & al & ->).
    rewrite resume_fulfilled. cbn [snd view trace isLoading].
    split; [reflexivity|].
    eexists [_; _; _]. split; [reflexivity | intro c0; reflexivity].
Qed.

(** C8: a call of the loader sets the loading flag to true, and does so
    before it issues the five reads; when the join has settled, fulfilled
    or rejected, the resumption sets the flag to false as its last effect
    and issues no further call; so a whole run ends with the flag false. *)
Theorem C8_loading_flag_toggled :
  forall rs w,
    let called := exec loadDashboardData_call w in
    let finished := exec (loadDashboardData rs) w in
    isLoading (view called) = true /\
    trace called = trace w ++ ESetIsLoading true :: ESetError "" :: five_reads /\
    finished = exec (loadDashboardData_resume rs) called /\
    isLoading (view finished) = false /\
    (exists mid,
        trace finished =
        trace w ++ ESetIsLoading true :: ESetError "" :: five_reads
                ++ mid ++ [ESetIsLoading false] /\
        forall c, calls c mid = 0) /\
    forall w0, isLoading (view (exec (loadDashboardData_resume rs) w0)) = false.
Proof.
  intros rs w called finished.
  assert (Hf : finished = exec (loadDashboardData_resume rs) called).
  { subst finished called. unfold exec at 1. now rewrite load_steps. }
  assert (Hc : trace called = trace w ++ ESetIsLoading true :: ESetError "" :: five_reads).
  { subst called. unfold exec. now rewrite call_runs. }
  split; [subst called; unfold exec; now rewrite call_runs|].
  split; [exact Hc|]. split; [exact Hf|].
  destruct (resume_clears_loading rs called) as (Hl & mid & Ht & Hn).
  rewrite Hf. split; [exact Hl|]. split.
  - exists mid. split; [|exact Hn].
    rewrite Ht, Hc. flatten_trace. reflexivity.
  - intro w0. apply resume_clears_loading.
Qed.

(** ** The two actions on alerts *)

Section LeaveOut.
Context {A : Type} (P : A -> Prop) (P_dec : forall a, {P a} + {~ P a}).

Lemma filter_leave_out (keep : A -> bool) (l : list A) :
  (forall a, keep a = false <-> P a) ->
  Array_filter keep l = leave_out P P_dec l.
Proof.
  intro H. unfold Array_filter.
  induction l as [| a l IH]; [reflexivity|].
  cbn [filter leave_out]. rewrite IH.
  destruct (P_dec a) as [Ha | Hn].
  - apply H in Ha. now rewrite Ha.
  - destruct (keep a) eqn:E; [reflexivity|]. apply H in E. contradiction.
Qed.

Lemma leave_out_In (l : list A) (a : A) :
  In a (leave_out P P_dec l) <-> In a l /\ ~ P a.
Proof.
  induction l as [| x l IH]; cbn [leave_out In]; [tauto|].
  destruct (P_dec x) as [Hx | Hx]; cbn [In]; rewrite IH;
    intuition (subst; tauto).
Qed.

Lemma leave_out_app (l1 l2 : list A) :
  leave_out P P_dec (l1 ++ l2) = leave_out P P_dec l1 ++ leave_out P P_dec l2.
Proof.
  induction l1 as [| x l1 IH]; [reflexivity|].
  cbn [app leave_out]. rewrite IH. now destruct (P_dec x).
Qed.

Lemma leave_out_none (l : list A) :
  (forall b, In b l -> ~ P b) -> leave_out P P_dec l = l.
Proof.
  induction l as [| x l IH]; intro H; [reflexivity|].
  cbn [leave_out]. destruct (P_dec x) as [Hx | Hx].
  - exfalso. apply (H x); [now left | exact Hx].
  - f_equal. apply IH. intros b Hb. apply H. now right.
Qed.

Lemma leave_out_the_one (l1 l2 : list A) (a : A) :
  P a -> (forall b, In b (l1 ++ l2) -> ~ P b) ->
  leave_out P P_dec (l1 ++ a :: l2) = l1 ++ l2.
Proof.
  intros Ha H. rewrite leave_out_app. cbn [leave_out].
  destruct (P_dec a) as [_ | Hn]; [|contradiction].
  rewrite <- leave_out_app. now apply leave_out_none.
Qed.

End LeaveOut.

Lemma dismiss_filter (alertId : JsId) (l : list Alert) :
  Array_filter (fun alert => negb (strict_eq (alert_Id alert) alertId)) l
  = leave_out (has_Id alertId) (has_Id_dec alertId) l.
Proof.
  apply filter_leave_out. intro a. unfold has_Id.
  rewrite negb_false_iff. apply strict_eq_spec.
Qed.

Lemma complete_filter (taskId : JsId) (l : list Alert) :
  Array_filter (fun alert => negb (strict_eq_opt (alert_taskId alert) taskId)) l
  = leave_out (refers_to_task taskId) (refers_to_task_dec taskId) l.
Proof.
  apply filter_leave_out. intro a. unfold refers_to_task.
  rewrite negb_false_iff. apply strict_eq_opt_spec.
Qed.

Lemma dismiss_fulfilled (alertId : JsId) (w : World) :
  handleDismissAlert alertId (Fulfilled tt) w =
  let kept := leave_out (has_Id alertId) (has_Id_dec alertId) (alerts (view w)) in
  (Normal tt,
   mkWorld (mkView (stats (view w)) (recentActivities (view w)) kept
                   (isLoading (view w)) (error (view w)))
           (trace w ++ [ECall (alertService_dismissAlert alertId);
                        ESetAlerts kept;
                        EToastSuccess "Alert dismissed"])).
Proof.
  unfold handleDismissAlert. run_eff. now rewrite dismiss_filter.
Qed.

Lemma dismiss_rejected (alertId : JsId) (t : nat) (reason : string) (w : World) :
  handleDismissAlert alertId (Rejected t reason) w =
  (Normal tt,
   mkWorld (view w)
           (trace w ++ [ECall (alertService_dismissAlert alertId);
                        EConsoleError "Dismiss alert error:" reason;
                        EToastError "Failed to dismiss alert"])).
Proof. unfold handleDismissAlert. run_eff. reflexivity. Qed.

Lemma complete_fulfilled (taskId : JsId) (w : World) :
  handleCompleteTask taskId (Fulfilled tt) w =
  let kept :=
    leave_out (refers_to_task taskId) (refers_to_task_dec taskId) (alerts (view w)) in
  (Normal tt,
   mkWorld (mkView (stats (view w)) (recentActivities (view w)) kept true "")
           (trace w ++ [ECall (alertService_completeTask taskId); ESetAlerts kept]
                    ++ ESetIsLoading true :: ESetError "" :: five_reads
                    ++ [EToastSuccess "Task completed successfully"])).
Proof.
  unfold handleCompleteTask, loadDashboardData_call. run_eff.
  now rewrite complete_filter.
Qed.

Lemma complete_rejected (taskId : JsId) (t : nat) (reason : string) (w : World) :
  handleCompleteTask taskId (Rejected t reason) w =
  (Normal tt,
   mkWorld (view w)
           (trace w ++ [ECall (alertService_completeTask taskId);
                        EConsoleError "Complete task error:" reason;
                        EToastError "Failed to complete task"])).
Proof. unfold handleCompleteTask. run_eff. reflexivity. Qed.

Lemma calls_app (c : ServiceCall) (l1 l2 : list Effect) :
  calls c (l1 ++ l2) = calls c l1 + calls c l2.
Proof. unfold calls. now rewrite filter_app, length_app. Qed.

(** C5: when its service call is fulfilled, the dismissal leaves in the
    alert list exactly the entries whose Id is not the one dismissed, in
    place and in order; when one entry has that Id, the list after is the
    list before without that entry. *)
Theorem C5_dismiss_removes_matching_alert :
  forall alertId w,
    let before := alerts (view w) in
    let after := alerts (view (exec (handleDismissAlert alertId (Fulfilled tt)) w)) in
    after = leave_out (has_Id alertId) (has_Id_dec alertId) before /\
    (forall a, In a after <-> In a before /\ alert_Id a <> alertId) /\
    (forall l1 a l2,
        before = l1 ++ a :: l2 ->
        alert_Id a = alertId ->
        (forall b, In b (l1 ++ l2) -> alert_Id b <> alertId) ->
        after = l1 ++ l2).
Proof.
  intros alertId w before after.
  assert (H : after = leave_out (has_Id alertId) (has_Id_dec alertId) before).
  { subst after. unfold exec. now rewrite dismiss_fulfilled. }
  split; [exact H|]. rewrite H. split.
  - intro a. apply (leave_out_In (has_Id alertId)).
  - intros l1 a l2 -> Ha Hothers. now apply (leave_out_the_one (has_Id alertId)).
Qed.

Lemma C5_dismiss_removes_matching_alert_witness :
  let before := alerts (view sample_world) in
  let after :=
    alerts (view (exec (handleDismissAlert (IdNum 2) (Fulfilled tt)) sample_world)) in
  after = leave_out (has_Id (IdNum 2)) (has_Id_dec (IdNum 2)) before /\
  (forall a, In a after <-> In a before /\ alert_Id a <> IdNum 2) /\
  after = [mkAlert (IdNum 1) "task_overdue" (Some (IdNum 7));
           mkAlert (IdNum 3) "task_due_today" (Some (IdNum 7));
           mkAlert (IdStr "1") "task_due_today" (Some (IdNum 8))].
Proof.
  intros before after.
  destruct (C5_dismiss_removes_matching_alert (IdNum 2) sample_world)
    as (H1 & H2 & H3).
  split; [exact H1|]. split; [exact H2|].
  apply (H3 [mkAlert (IdNum 1) "task_overdue" (Some (IdNum 7))]
            (mkAlert (IdNum 2) "contact_follow_up" None)
            [mkAlert (IdNum 3) "task_due_today" (Some (IdNum 7));
             mkAlert (IdStr "1") "task_due_today" (Some (IdNum 8))]).
  - reflexivity.
  - reflexivity.
  - cbn. intros b [<- | [<- | [<- | []]]]; cbn; discriminate.
Defined.

(** C7: when its service call is rejected, the dismissal leaves the whole
    view state as it was, logs the reason and shows the error toast and
    nothing else, and completes normally. *)
Theorem C7_dismiss_failure_contained :
  forall alertId t reason w,
    view (exec (handleDismissAlert alertId (Rejected t reason)) w) = view w /\
    trace (exec (handleDismissAlert alertId (Rejected t reason)) w) =
      trace w ++ [ECall (alertService_dismissAlert alertId);
                  EConsoleError "Dismiss alert error:" reason;
                  EToastError "Failed to dismiss alert"] /\
    completion (handleDismissAlert alertId (Rejected t reason)) w = Normal tt.
Proof.
  intros. unfold exec, completion. rewrite dismiss_rejected. repeat split.
Qed.

(** C9: however its service call settles, the dismissal leaves the stats,
    the recent activities, the loading flag and the error message as
    they were. *)
Theorem C9_dismiss_frame :
  forall alertId settled w,
    let w' := exec (handleDismissAlert alertId settled) w in
    stats (view w') = stats (view w) /\
    recentActivities (view w') = recentActivities (view w) /\
    isLoading (view w') = isLoading (view w) /\
    error (view w') = error (view w).
Proof.
  intros alertId [[] | t reason] w w'; subst w'; unfold exec.
  - rewrite dismiss_fulfilled. repeat split.
  - rewrite dismiss_rejected. repeat split.
Qed.

(** C4: when its service call is fulfilled, the task completion leaves in
    the alert list exactly the entries that do not refer to the task, in
    place and in order, and starts one load: the trace gains the service
    call, the alert update, one call of the loader with each of the five
    reads issued once, and the success toast; when that load resumes, the
    view is the one a whole run of the loader gives on the state with
    those alerts removed.  When the service call is
    rejected the view is as it was and the trace gains only the service
    call, the log entry and the failure toast. *)
Theorem C4_complete_task :
  forall taskId w,
    (let w' := exec (handleCompleteTask taskId (Fulfilled tt)) w in
     let kept :=
       leave_out (refers_to_task taskId) (refers_to_task_dec taskId) (alerts (view w)) in
     alerts (view w') = kept /\
     (forall a, In a (alerts (view w')) <->
                In a (alerts (view w)) /\ alert_taskId a <> Some taskId) /\
     trace w' =
       trace w ++ [ECall (alertService_completeTask taskId); ESetAlerts kept]
               ++ ESetIsLoading true :: ESetError "" :: five_reads
               ++ [EToastSuccess "Task completed successfully"] /\
     map (fun c => calls c (trace w')) read_calls =
       map (fun c => S (calls c (trace w))) read_calls /\
     isLoading (view w') = true /\
     stats (view w') = stats (view w) /\
     recentActivities (view w') = recentActivities (view w) /\
     forall rs,
       view (exec (loadDashboardData_resume rs) w') =
       view (exec (loadDashboardData rs)
                  (mkWorld (mkView (stats (view w)) (recentActivities (view w)) kept
                                   (isLoading (view w)) (error (view w)))
                           (trace w)))) /\
    (forall t reason,
        let w' := exec (handleCompleteTask taskId (Rejected t reason)) w in
        view w' = view w /\
        trace w' =
          trace w ++ [ECall (alertService_completeTask taskId);
                      EConsoleError "Complete task error:" reason;
                      EToastError "Failed to complete task"] /\
        map (fun c => calls c (trace w')) read_calls =
          map (fun c => calls c (trace w)) read_calls).
Proof.
  intros taskId w. split.
  - unfold exec. rewrite complete_fulfilled. cbn [snd view trace alerts isLoading
      stats recentActivities].
    split; [reflexivity|]. split; [intro a; apply (leave_out_In (refers_to_task taskId))|].
    split; [reflexivity|]. split.
    { cbn [map read_calls]. rewrite !calls_app. cbn. repeat f_equal; lia. }
    repeat (split; [reflexivity|]).
    intro rs. rewrite load_steps. unfold exec. rewrite call_runs.
    cbn [snd view trace alerts stats recentActivities].
    destruct (some_read_rejects rs) eqn:E.
    + destruct (Promise_all_rejected rs E) as (t & reason & Hrej).
      now rewrite !(resume_rejected rs t reason _ Hrej).
    + destruct (Promise_all_fulfilled rs E) as (c & d & tk & a & al & ->).
      now rewrite !resume_fulfilled.
  - intros t reason. unfold exec. rewrite complete_rejected. cbn [snd view trace].
    split; [reflexivity|]. split; [reflexivity|].
    cbn [map read_calls]. rewrite !calls_app. cbn. repeat f_equal; lia.
Qed.

(** ** The bound on the recent activities *)

Lemma resume_recentActivities (rs : Reads) (w : World) :
  let recent := recentActivities (view (exec (loadDashboardData_resume rs) w)) in
  recent = recentActivities (view w) \/
  exists activities,
    activities_read rs = Fulfilled activities /\
    recent = firstn 10 (Array_sort by_recency activities).
Proof.
  unfold exec. destruct (some_read_rejects rs) eqn:E.
  - destruct (Promise_all_rejected rs E) as (t & reason & Hrej).
    rewrite (resume_rejected rs t reason w Hrej). now left.
  - destruct (Promise_all_fulfilled rs E) as (c & d & tk & a & al & ->).
    rewrite resume_fulfilled. right. now exists a.
Qed.

Lemma run_op_bound (w : World) (op : Op) :
  List.length (recentActivities (view w)) <= 10 ->
  List.length (recentActivities (view (run_op w op))) <= 10.
Proof.
  intro H. destruct op as [| rs | alertId [[] | t reason] | taskId [[] | t reason]];
    cbn [run_op].
  - unfold exec. now rewrite call_runs.
  - destruct (resume_recentActivities rs w) as [-> | (a & _ & ->)]; [exact H|].
    rewrite length_firstn. lia.
  - unfold exec. now rewrite dismiss_fulfilled.
  - unfold exec. now rewrite dismiss_rejected.
  - unfold exec. now rewrite complete_fulfilled.
  - unfold exec. now rewrite complete_rejected.
Qed.

Lemma run_ops_bound (ops : list Op) (w : World) :
  List.length (recentActivities (view w)) <= 10 ->
  List.length (recentActivities (view (run_ops ops w))) <= 10.
Proof.
  revert w. induction ops as [| op ops IH]; intros w H; [exact H|].
  cbn [run_ops fold_left]. apply IH. now apply run_op_bound.
Qed.

(** C10: the recent activities start empty; after any sequence of loader
    calls, loader resumptions, dismissals and task completions they are
    at most 10; a resumption leaves them as they were or sets them to the
    first 10 of the sorted activities it read; the other operations leave
    them as they were. *)
Theorem C10_recent_activities_at_most_ten :
  recentActivities (view initialWorld) = [] /\
  (forall ops,
      List.length (recentActivities (view (run_ops ops initialWorld))) <= 10) /\
  (forall w rs,
      let recent := recentActivities (view (run_op w (OpLoadResume rs))) in
      recent = recentActivities (view w) \/
      exists activities,
        activities_read rs = Fulfilled activities /\
        recent = firstn 10 (Array_sort by_recency activities)) /\
  (forall w,
      recentActivities (view (run_op w OpLoadCall)) = recentActivities (view w)) /\
  (forall w alertId settled,
      recentActivities (view (run_op w (OpDismissAlert alertId settled)))
      = recentActivities (view w)) /\
  (forall w taskId settled,
      recentActivities (view (run_op w (OpCompleteTask taskId settled)))
      = recentActivities (view w)).
Proof.
  split; [reflexivity|]. split.
  { intro ops. apply run_ops_bound. cbn. lia. }
  split; [intros w rs; apply resume_recentActivities|].
  split; [|split].
  - intro w. cbn [run_op]. unfold exec. now rewrite call_runs.
  - intros w alertId [[] | t reason]; cbn [run_op]; unfold exec.
    + now rewrite dismiss_fulfilled.
    + now rewrite dismiss_rejected.
  - intros w taskId [[] | t reason]; cbn [run_op]; unfold exec.
    + now rewrite complete_fulfilled.
    + now rewrite complete_rejected.
Qed.

(** ** Whole loads, retry and overlapping loads *)

Lemma load_fulfilled_view w contacts deals tasks activities alertsData :
  view (exec (loadDashboardData
                (fulfilled contacts deals tasks activities alertsData)) w)
  = mkView (stats_of contacts deals tasks) (recent_of activities) alertsData false "".
Proof.
  unfold exec at 1. rewrite load_steps, resume_fulfilled.
  unfold exec. rewrite call_runs. reflexivity.
Qed.

Lemma load_rejected_view rs w :
  some_read_rejects rs = true ->
  view (exec (loadDashboardData rs) w)
  = mkView (stats (view w)) (recentActivities (view w)) (alerts (view w))
           false "Failed to load dashboard data".
Proof.
  intro H. destruct (Promise_all_rejected rs H) as (t & reason & Hrej).
  unfold exec at 1. rewrite load_steps, (resume_rejected rs t reason _ Hrej).
  unfold exec. rewrite call_runs. reflexivity.
Qed.

Lemma reads_cases (rs : Reads) :
  some_read_rejects rs = true \/
  exists contacts deals tasks activities alertsData,
    rs = fulfilled contacts deals tasks activities alertsData.
Proof.
  destruct (some_read_rejects rs) eqn:E; [now left | right].
  now apply Promise_all_fulfilled.
Qed.

(** X1: Retry: from any state in which the page shows the error view, running
    the retry handler that view was given, with all five reads fulfilled,
    leads to the page itself, showing what was read. *)
Theorem retry_recovers :
  forall v tr message onRetry contacts deals tasks activities alertsData,
    render v = Error message onRetry ->
    render (view (exec (onRetry (fulfilled contacts deals tasks activities alertsData))
                       (mkWorld v tr)))
    = Page (stats_of contacts deals tasks) (recent_of activities) alertsData
           handleDismissAlert handleCompleteTask.
Proof.
  intros v tr message onRetry contacts deals tasks activities alertsData H.
  unfold render in H.
  destruct (isLoading v); [discriminate|].
  destruct (truthy (error v)); [|discriminate].
  injection H as _ <-.
  now rewrite load_fulfilled_view.
Qed.

Lemma retry_recovers_witness :
  let v := mkView initialStats [] [] false "Failed to load dashboard data" in
  render v = Error "Failed to load dashboard data" loadDashboardData /\
  render (view (exec (loadDashboardData
                        (fulfilled [mkContact (IdNum 1)] sample_deals [mkTask true]
                                   sample_activities sample_alerts))
                     (mkWorld v [])))
  = Page (stats_of [mkContact (IdNum 1)] sample_deals [mkTask true])
         (recent_of sample_activities) sample_alerts
         handleDismissAlert handleCompleteTask.
Proof.
  intro v. split; [reflexivity|].
  exact (retry_recovers v [] "Failed to load dashboard data" loadDashboardData
           [mkContact (IdNum 1)] sample_deals [mkTask true]
           sample_activities sample_alerts eq_refl).
Defined.

(** X2: A whole run of the loader is idempotent on the view: running it again
    with reads that settle the same way changes nothing; and when all five
    reads are fulfilled the view it leaves does not depend on the state it
    started from. *)
Theorem load_idempotent :
  (forall rs w,
      view (exec (loadDashboardData rs) (exec (loadDashboardData rs) w))
      = view (exec (loadDashboardData rs) w)) /\
  (forall contacts deals tasks activities alertsData w1 w2,
      view (exec (loadDashboardData
                    (fulfilled contacts deals tasks activities alertsData)) w1)
      = view (exec (loadDashboardData
                      (fulfilled contacts deals tasks activities alertsData)) w2)).
Proof.
  split.
  - intros rs w. destruct (reads_cases rs) as [H | (c & d & t & a & al & ->)].
    + rewrite !(load_rejected_view rs _ H). reflexivity.
    + now rewrite !load_fulfilled_view.
  - intros. now rewrite !load_fulfilled_view.
Qed.

(** X3: Overlapping loads: when two task completions succeed before either of
    the loads they start has resumed, and one load fails while the other
    is fulfilled, the view ends, in whichever order the two resume, with
    the data of the fulfilled load and the error message of the failed
    one, so the page shows the error view. *)
Theorem overlapping_loads_keep_error :
  forall w task1 task2 bad contacts deals tasks activities alertsData,
    some_read_rejects bad = true ->
    let good := fulfilled contacts deals tasks activities alertsData in
    let started :=
      [OpCompleteTask task1 (Fulfilled tt); OpCompleteTask task2 (Fulfilled tt)] in
    let v1 := view (run_ops (started ++ [OpLoadResume bad; OpLoadResume good]) w) in
    let v2 := view (run_ops (started ++ [OpLoadResume good; OpLoadResume bad]) w) in
    v1 = mkView (stats_of contacts deals tasks) (recent_of activities) alertsData
                false "Failed to load dashboard data" /\
    v2 = v1 /\
    render v1 = Error "Failed to load dashboard data" loadDashboardData.
Proof.
  intros w task1 task2 bad contacts deals tasks activities alertsData H good started v1 v2.
  destruct (Promise_all_rejected bad H) as (t & reason & Hrej).
  assert (H1 : v1 = mkView (stats_of contacts deals tasks) (recent_of activities)
                           alertsData false "Failed to load dashboard data").
  { subst v1 started good. cbn [run_ops app fold_left run_op]. unfold exec.
    rewrite resume_fulfilled, (resume_rejected bad t reason _ Hrej).
    reflexivity. }
  assert (H2 : v2 = mkView (stats_of contacts deals tasks) (recent_of activities)
                           alertsData false "Failed to load dashboard data").
  { subst v2 started good. cbn [run_ops app fold_left run_op]. unfold exec.
    rewrite (resume_rejected bad t reason _ Hrej), resume_fulfilled.
    reflexivity. }
  split; [exact H1|]. split; [congruence|]. now rewrite H1.
Qed.

Lemma overlapping_loads_keep_error_witness :
  let bad := mkReads (Fulfilled []) (Fulfilled []) (Rejected 2 "timeout")
                     (Fulfilled []) (Fulfilled []) in
  some_read_rejects bad = true /\
  let good := fulfilled [mkContact (IdNum 1)] sample_deals [mkTask true]
                        sample_activities [] in
  let started :=
    [OpCompleteTask (IdNum 7) (Fulfilled tt); OpCompleteTask (IdNum 8) (Fulfilled tt)] in
  let v1 := view (run_ops (started ++ [OpLoadResume bad; OpLoadResume good])
                          sample_world) in
  let v2 := view (run_ops (started ++ [OpLoadResume good; OpLoadResume bad])
                          sample_world) in
  v1 = mkView (stats_of [mkContact (IdNum 1)] sample_deals [mkTask true])
              (recent_of sample_activities) [] false "Failed to load dashboard data" /\
  v2 = v1 /\
  render v1 = Error "Failed to load dashboard data" loadDashboardData.
Proof.
  intro bad. split; [reflexivity|].
  exact (overlapping_loads_keep_error sample_world (IdNum 7) (IdNum 8) bad
           [mkContact (IdNum 1)] sample_deals [mkTask true] sample_activities []
           eq_refl).
Defined.

(** ** More on the recent activities *)

(** X4: Whatever the timestamps, repeated or not, the recent activities left
    by a successful load are min(N,10) in number, never have an earlier
    activity before a later one, and no activity left out is later than
    one that is kept. *)
Theorem recent_activities_any_timestamps :
  forall w contacts deals tasks activities alertsData,
    let recent :=
      recentActivities
        (view (exec (loadDashboardData
                       (fulfilled contacts deals tasks activities alertsData)) w)) in
    List.length recent = Nat.min (List.length activities) 10 /\
    StronglySorted not_earlier recent /\
    exists others,
      Permutation activities (recent ++ others) /\
      forall a b, In a recent -> In b others -> not_earlier a b.
Proof.
  intros w contacts deals tasks activities alertsData recent.
  subst recent. rewrite load_fulfilled_view. cbn [recentActivities].
  unfold recent_of. set (sorted := Array_sort by_recency activities).
  assert (Hs : StronglySorted not_earlier sorted) by apply Array_sort_sorted.
  rewrite <- (firstn_skipn 10 sorted) in Hs.
  apply StronglySorted_app_inv in Hs as [Hs Hle].
  split; [|split; [exact Hs|]].
  - rewrite length_firstn. subst sorted. rewrite Array_sort_length. lia.
  - exists (skipn 10 sorted). split; [|exact Hle].
    rewrite firstn_skipn. apply Array_sort_perm.
Qed.

Lemma at_instant_insert (t : Z) (x : Activity) (l : list Activity) :
  at_instant t (sort_insert by_recency x l) = at_instant t (x :: l).
Proof.
  unfold at_instant.
  induction l as [| y l IH]; [reflexivity|].
  cbn [sort_insert]. destruct (by_recency x y <=? 0)%Z eqn:E; [reflexivity|].
  apply Z.leb_gt in E. unfold by_recency in E.
  cbn [filter] in *. rewrite IH.
  destruct (Z.eqb_spec (activity_timestamp y) t) as [Hy | Hy];
    destruct (Z.eqb_spec (activity_timestamp x) t) as [Hx | Hx];
    try reflexivity.
  lia.
Qed.

Lemma at_instant_sort (t : Z) (l : list Activity) :
  at_instant t (Array_sort by_recency l) = at_instant t l.
Proof.
  unfold Array_sort.
  induction l as [| x l IH]; [reflexivity|].
  cbn [fold_right]. rewrite at_instant_insert.
  unfold at_instant in *. cbn [filter]. now rewrite IH.
Qed.

(** X5: Activities with the same timestamp are shown in the order in which the
    activity service returned them: for every instant, the recent
    activities at that instant are the first of those read at it. *)
Theorem recent_activities_ties_keep_order :
  forall w contacts deals tasks activities alertsData t,
    let recent :=
      recentActivities
        (view (exec (loadDashboardData
                       (fulfilled contacts deals tasks activities alertsData)) w)) in
    exists rest, at_instant t activities = at_instant t recent ++ rest.
Proof.
  intros w contacts deals tasks activities alertsData t recent.
  subst recent. rewrite load_fulfilled_view. cbn [recentActivities].
  unfold recent_of.
  exists (at_instant t (skipn 10 (Array_sort by_recency activities))).
  unfold at_instant. rewrite <- filter_app, firstn_skipn.
  symmetry. apply at_instant_sort.
Qed.

Lemma sort_sorted_unchanged (l : list Activity) :
  StronglySorted not_earlier l -> Array_sort by_recency l = l.
Proof.
  unfold Array_sort.
  induction 1 as [| x l Hl IH Hx]; [reflexivity|].
  cbn [fold_right]. rewrite IH.
  destruct l as [| y l']; [reflexivity|].
  cbn [sort_insert].
  apply Forall_inv in Hx. unfold not_earlier in Hx.
  destruct (by_recency x y <=? 0)%Z eqn:E; [reflexivity|].
  apply Z.leb_gt in E. unfold by_recency in E. lia.
Qed.

(** X6: When the activity service already returns the activities latest first,
    the recent activities are simply the first ten of them. *)
Theorem recent_activities_of_sorted_read :
  forall w contacts deals tasks activities alertsData,
    StronglySorted not_earlier activities ->
    recentActivities
      (view (exec (loadDashboardData
                     (fulfilled contacts deals tasks activities alertsData)) w))
    = firstn 10 activities.
Proof.
  intros w contacts deals tasks activities alertsData H.
  rewrite load_fulfilled_view. cbn [recentActivities].
  unfold recent_of. now rewrite sort_sorted_unchanged.
Qed.

Lemma recent_activities_of_sorted_read_witness :
  let activities :=
    [mkActivity (IdNum 1) 30; mkActivity (IdNum 2) 20; mkActivity (IdNum 3) 20;
     mkActivity (IdNum 4) 10] in
  StronglySorted not_earlier activities /\
  recentActivities
    (view (exec (loadDashboardData (fulfilled [] [] [] activities [])) initialWorld))
  = firstn 10 activities.
Proof.
  intro activities.
  assert (H : StronglySorted not_earlier activities).
  { repeat (constructor; [| repeat constructor; unfold not_earlier; cbn; lia]).
    constructor. }
  split; [exact H|].
  exact (recent_activities_of_sorted_read initialWorld [] [] [] activities [] H).
Defined.

(** X7: After a successful load the activity feed shows its placeholder exactly
    when the activity service returned no activity; otherwise it shows
    min(N,10) items. *)
Theorem feed_empty_iff_nothing_read :
  forall Number_toString w contacts deals tasks activities alertsData,
    let feed :=
      activityFeed Number_toString
        (recentActivities
           (view (exec (loadDashboardData
                          (fulfilled contacts deals tasks activities alertsData)) w))) in
    (feed = NoRecentActivity <-> activities = []) /\
    (forall items, feed = ActivityItems items ->
       List.length items = Nat.min (List.length activities) 10 /\
       (0 < List.length items)%nat).
Proof.
  intros Number_toString w contacts deals tasks activities alertsData feed.
  subst feed. rewrite load_fulfilled_view. cbn [recentActivities].
  assert (L : List.length (recent_of activities) = Nat.min (List.length activities) 10).
  { unfold recent_of. rewrite length_firstn, Array_sort_length. lia. }
  unfold activityFeed.
  destruct (0 <? List.length (recent_of activities))%nat eqn:E.
  - apply Nat.ltb_lt in E. split.
    + split; [discriminate|]. intros ->. cbn in E. lia.
    + intros items [= <-]. rewrite length_map. lia.
  - apply Nat.ltb_ge in E. split.
    + split; [|reflexivity]. intros _.
      destruct activities; [reflexivity | cbn [List.length] in L; lia].
    + intros items [=].
Qed.

Lemma feed_empty_iff_nothing_read_witness :
  let feed :=
    activityFeed decimal
      (recentActivities
         (view (exec (loadDashboardData (fulfilled [] [] [] sample_activities []))
                     initialWorld))) in
  (feed = NoRecentActivity <-> sample_activities = []) /\
  exists items, feed = ActivityItems items /\ List.length items = 10.
Proof.
  intro feed.
  destruct (feed_empty_iff_nothing_read decimal initialWorld [] [] [] sample_activities [])
    as [H1 H2].
  split; [exact H1|].
  eexists. split; [reflexivity|].
  exact (proj1 (H2 _ eq_refl)).
Defined.

(** A number and the string of its digits give the same key. *)
Lemma key_of_number_and_string :
  key_of decimal (IdNum 1) = key_of decimal (IdStr "1") /\ IdNum 1 <> IdStr "1".
Proof. split; [reflexivity | discriminate]. Qed.

(** X8: When the Ids of the activities read are pairwise distinct as keys,
    that is after the conversion to strings that React applies (under
    which a number and the string of its digits are the same key), the
    items of the feed have pairwise distinct keys. *)
Theorem feed_keys_distinct :
  forall Number_toString w contacts deals tasks activities alertsData,
    NoDup (map (fun a => key_of Number_toString (activity_Id a)) activities) ->
    forall items,
      activityFeed Number_toString
        (recentActivities
           (view (exec (loadDashboardData
                          (fulfilled contacts deals tasks activities alertsData)) w)))
      = ActivityItems items ->
      NoDup (map fst items).
Proof.
  intros Number_toString w contacts deals tasks activities alertsData Hnd items.
  rewrite load_fulfilled_view. cbn [recentActivities].
  unfold activityFeed.
  destruct (0 <? _)%nat; [|discriminate].
  intros [= <-]. rewrite map_map. cbn [fst].
  unfold recent_of.
  set (key := fun a => key_of Number_toString (activity_Id a)) in *.
  assert (Hs : NoDup (map key (Array_sort by_recency activities))).
  { eapply Permutation_NoDup; [|exact Hnd].
    apply Permutation_map, Array_sort_perm. }
  rewrite <- (firstn_skipn 10 (Array_sort by_recency activities)) in Hs.
  rewrite map_app in Hs. now apply NoDup_app_remove_r in Hs.
Qed.

Lemma feed_keys_distinct_witness :
  NoDup (map (fun a => key_of decimal (activity_Id a)) sample_activities) /\
  exists items,
    activityFeed decimal
      (recentActivities
         (view (exec (loadDashboardData (fulfilled [] [] [] sample_activities []))
                     initialWorld)))
    = ActivityItems items /\
    NoDup (map fst items).
Proof.
  assert (H : NoDup (map (fun a => key_of decimal (activity_Id a)) sample_activities)).
  { vm_compute. repeat (constructor; [cbn; intuition congruence|]). constructor. }
  split; [exact H|].
  eexists. split; [reflexivity|].
  exact (feed_keys_distinct decimal initialWorld [] [] [] sample_activities [] H _ eq_refl).
Defined.

(** ** Bounds on the statistics *)

Lemma spec_active_count_le (deals : list Deal) :
  spec_active_count deals <= List.length deals.
Proof.
  induction deals as [| d rest IH]; cbn [spec_active_count List.length]; [lia|].
  destruct (active_dec d); lia.
Qed.

(** X9: After a successful load the contact count is the number of contacts
    read, the active-deal count is at most the number of deals read and
    the completed-task count at most the number of tasks read. *)
Theorem stats_within_what_was_read :
  forall w contacts deals tasks activities alertsData,
    let s :=
      stats (view (exec (loadDashboardData
                           (fulfilled contacts deals tasks activities alertsData)) w)) in
    totalContacts s = List.length contacts /\
    totalDeals s <= List.length deals /\
    completedTasks s <= List.length tasks.
Proof.
  intros w contacts deals tasks activities alertsData s.
  subst s. rewrite load_fulfilled_view. cbn.
  split; [reflexivity|]. split; [apply spec_active_count_le|].
  unfold spec_completed_count.
  rewrite <- (length_map task_completed tasks). apply count_occ_bound.
Qed.

(** ** More on the dismissal *)

Section LeaveOutMore.
Context {A : Type} (P Q : A -> Prop)
        (P_dec : forall a, {P a} + {~ P a}) (Q_dec : forall a, {Q a} + {~ Q a}).

Lemma leave_out_comm (l : list A) :
  leave_out P P_dec (leave_out Q Q_dec l) = leave_out Q Q_dec (leave_out P P_dec l).
Proof.
  induction l as [| x l IH]; [reflexivity|].
  cbn [leave_out].
  destruct (Q_dec x) as [Hq | Hq]; destruct (P_dec x) as [Hp | Hp];
    cbn [leave_out]; rewrite ?IH;
    try (destruct (Q_dec x); [|contradiction]);
    try (destruct (P_dec x); [|contradiction]);
    try (destruct (Q_dec x); [contradiction|]);
    try (destruct (P_dec x); [contradiction|]);
    reflexivity.
Qed.

Lemma leave_out_twice (l : list A) :
  leave_out P P_dec (leave_out P P_dec l) = leave_out P P_dec l.
Proof.
  apply leave_out_none. intros b Hb.
  now apply (leave_out_In P P_dec) in Hb.
Qed.

Lemma leave_out_length (l : list A) :
  List.length (leave_out P P_dec l)
  + List.length (filter (fun a => if P_dec a then true else false) l)
  = List.length l.
Proof.
  induction l as [| x l IH]; [reflexivity|].
  cbn [leave_out filter]. destruct (P_dec x); cbn [List.length]; lia.
Qed.

End LeaveOutMore.

Lemma dismiss_alerts (alertId : JsId) (w : World) :
  alerts (view (exec (handleDismissAlert alertId (Fulfilled tt)) w))
  = leave_out (has_Id alertId) (has_Id_dec alertId) (alerts (view w)).
Proof. unfold exec. now rewrite dismiss_fulfilled. Qed.

(** X11: Dismissing an identifier that no alert of the list carries leaves the
    whole view as it was; the service is still called and the success
    toast is still shown. *)
Theorem dismiss_unknown_alert :
  forall alertId w,
    (forall a, In a (alerts (view w)) -> alert_Id a <> alertId) ->
    let w' := exec (handleDismissAlert alertId (Fulfilled tt)) w in
    view w' = view w /\
    trace w' = trace w ++ [ECall (alertService_dismissAlert alertId);
                           ESetAlerts (alerts (view w));
                           EToastSuccess "Alert dismissed"].
Proof.
  intros alertId w H w'. subst w'. unfold exec. rewrite dismiss_fulfilled.
  cbn [snd view trace].
  rewrite (leave_out_none (has_Id alertId) (has_Id_dec alertId) _ H).
  split; [now destruct w as [[] ?] | reflexivity].
Qed.

Lemma dismiss_unknown_alert_witness :
  (forall a, In a (alerts (view sample_world)) -> alert_Id a <> IdStr "2") /\
  let w' := exec (handleDismissAlert (IdStr "2") (Fulfilled tt)) sample_world in
  view w' = view sample_world /\
  trace w' = trace sample_world ++ [ECall (alertService_dismissAlert (IdStr "2"));
                                    ESetAlerts (alerts (view sample_world));
                                    EToastSuccess "Alert dismissed"].
Proof.
  assert (H : forall a, In a (alerts (view sample_world)) -> alert_Id a <> IdStr "2").
  { cbn. intros a [<- | [<- | [<- | [<- | []]]]]; cbn; discriminate. }
  split; [exact H|].
  exact (dismiss_unknown_alert (IdStr "2") sample_world H).
Defined.

(** X12: Successful dismissals can be repeated and reordered: dismissing the
    same identifier twice leaves the alerts that one dismissal leaves, and
    dismissing two identifiers leaves the same alerts in either order. *)
Theorem dismiss_idempotent_and_commutative :
  forall x y w,
    let dismiss id := exec (handleDismissAlert id (Fulfilled tt)) in
    alerts (view (dismiss x (dismiss x w))) = alerts (view (dismiss x w)) /\
    alerts (view (dismiss x (dismiss y w))) = alerts (view (dismiss y (dismiss x w))).
Proof.
  intros x y w dismiss. subst dismiss. cbv beta.
  rewrite !dismiss_alerts. split.
  - apply leave_out_twice.
  - apply leave_out_comm.
Qed.

(** X13: A successful dismissal shortens the alert list by exactly the number
    of entries that carry the identifier, so the list never grows. *)
Theorem dismiss_length :
  forall alertId w,
    List.length (alerts (view (exec (handleDismissAlert alertId (Fulfilled tt)) w)))
    + List.length (filter (fun a => strict_eq (alert_Id a) alertId) (alerts (view w)))
    = List.length (alerts (view w)).
Proof.
  intros alertId w. rewrite dismiss_alerts.
  rewrite <- (leave_out_length (has_Id alertId) (has_Id_dec alertId) (alerts (view w))).
  f_equal. f_equal. apply filter_ext. intro a.
  unfold has_Id_dec. destruct (JsId_eq_dec (alert_Id a) alertId) as [E | E].
  - now apply strict_eq_spec.
  - destruct (strict_eq (alert_Id a) alertId) eqn:S; [|reflexivity].
    apply strict_eq_spec in S. contradiction.
Qed.

(** ** Task completion followed by its reload *)

(** X14: When the task completion succeeds and the load it starts is fulfilled,
    the view ends as a plain load leaves it: the alerts are those the
    alert service returned, whether or not they still refer to the task,
    and the page is shown. *)
Theorem complete_then_reload_fulfilled :
  forall taskId w contacts deals tasks activities alertsData,
    let w' :=
      run_ops [OpCompleteTask taskId (Fulfilled tt);
               OpLoadResume (fulfilled contacts deals tasks activities alertsData)] w in
    view w' = mkView (stats_of contacts deals tasks) (recent_of activities)
                     alertsData false "" /\
    render (view w') = Page (stats_of contacts deals tasks) (recent_of activities)
                            alertsData handleDismissAlert handleCompleteTask.
Proof.
  intros taskId w contacts deals tasks activities alertsData w'.
  assert (H : view w' = mkView (stats_of contacts deals tasks) (recent_of activities)
                               alertsData false "").
  { subst w'. cbn [run_ops fold_left run_op]. unfold exec.
    rewrite resume_fulfilled, complete_fulfilled. reflexivity. }
  split; [exact H|]. now rewrite H.
Qed.

(** X15: When the task completion succeeds but the load it starts fails, the
    page ends on the error view although the success toast was shown; the
    alerts referring to the task stay removed and the statistics and
    recent activities are the old ones. *)
Theorem complete_then_reload_rejected :
  forall taskId w rs,
    some_read_rejects rs = true ->
    let w' := run_ops [OpCompleteTask taskId (Fulfilled tt); OpLoadResume rs] w in
    view w' =
      mkView (stats (view w)) (recentActivities (view w))
             (leave_out (refers_to_task taskId) (refers_to_task_dec taskId)
                        (alerts (view w)))
             false "Failed to load dashboard data" /\
    render (view w') = Error "Failed to load dashboard data" loadDashboardData /\
    In (EToastSuccess "Task completed successfully") (trace w') /\
    toasts (trace w') = toasts (trace w) + 1.
Proof.
  intros taskId w rs H w'.
  destruct (Promise_all_rejected rs H) as (t & reason & Hrej).
  assert (Hw : w' =
    mkWorld
      (mkView (stats (view w)) (recentActivities (view w))
              (leave_out (refers_to_task taskId) (refers_to_task_dec taskId)
                         (alerts (view w)))
              false "Failed to load dashboard data")
      ((trace w ++ [ECall (alertService_completeTask taskId);
                    ESetAlerts (leave_out (refers_to_task taskId)
                                          (refers_to_task_dec taskId)
                                          (alerts (view w)))]
                ++ ESetIsLoading true :: ESetError "" :: five_reads
                ++ [EToastSuccess "Task completed successfully"])
       ++ failure_suffix reason)).
  { subst w'. cbn [run_ops fold_left run_op]. unfold exec.
    rewrite (resume_rejected rs t reason _ Hrej), complete_fulfilled. reflexivity. }
  rewrite Hw. cbn [view trace]. split; [reflexivity|]. split; [reflexivity|]. split.
  - rewrite !in_app_iff. left. right. cbn. tauto.
  - unfold toasts. rewrite !filter_app, !length_app. cbn. lia.
Qed.

Lemma complete_then_reload_rejected_witness :
  let rs := mkReads (Fulfilled []) (Fulfilled []) (Fulfilled []) (Fulfilled [])
                    (Rejected 1 "503") in
  some_read_rejects rs = true /\
  let w' := run_ops [OpCompleteTask (IdNum 7) (Fulfilled tt); OpLoadResume rs]
                    sample_world in
  view w' =
    mkView (stats (view sample_world)) (recentActivities (view sample_world))
           (leave_out (refers_to_task (IdNum 7)) (refers_to_task_dec (IdNum 7))
                      (alerts (view sample_world)))
           false "Failed to load dashboard data" /\
  render (view w') = Error "Failed to load dashboard data" loadDashboardData /\
  In (EToastSuccess "Task completed successfully") (trace w') /\
  toasts (trace w') = toasts (trace sample_world) + 1.
Proof.
  intro rs. split; [reflexivity|].
  exact (complete_then_reload_rejected (IdNum 7) sample_world rs eq_refl).
Defined.

(** ** The "Today's Focus" card *)

Lemma focusCount_app (ty : string) (l1 l2 : list Alert) :
  focusCount ty (l1 ++ l2) = focusCount ty l1 + focusCount ty l2.
Proof. unfold focusCount, Array_filter. now rewrite filter_app, length_app. Qed.

Lemma focusCount_cons (ty : string) (a : Alert) (l : list Alert) :
  focusCount ty (a :: l)
  = (if String.eqb (alert_type a) ty then 1 else 0) + focusCount ty l.
Proof.
  unfold focusCount, Array_filter. cbn [filter].
  now destruct (String.eqb (alert_type a) ty).
Qed.

(** X16: The three counts of the card never add up to more than the number of
    alerts, and add up to it exactly when every alert has one of the
    three types counted. *)
Theorem focus_counts_partition :
  forall alerts,
    let f := todaysFocus alerts in
    overdueTasks f + followUpsDue f + tasksDueToday f <= List.length alerts /\
    (overdueTasks f + followUpsDue f + tasksDueToday f = List.length alerts <->
     Forall (fun a => In (alert_type a) focus_types) alerts).
Proof.
  intro l. cbn [todaysFocus overdueTasks followUpsDue tasksDueToday].
  induction l as [| a l [IHle IHeq]].
  - cbn. split; [lia|]. split; [constructor | reflexivity].
  - rewrite !focusCount_cons. cbn [List.length].
    destruct (String.eqb_spec (alert_type a) "task_overdue") as [E1 | E1];
      destruct (String.eqb_spec (alert_type a) "contact_follow_up") as [E2 | E2];
      destruct (String.eqb_spec (alert_type a) "task_due_today") as [E3 | E3];
      try (rewrite E1 in *; discriminate);
      try (rewrite E2 in *; discriminate).
    all: split; [lia|].
    all: rewrite Forall_cons_iff, <- IHeq.
    all: unfold focus_types; cbn [In].
    all: split; [intro H; split; [auto | lia] | intros [H ?]].
    all: try lia.
    exfalso. destruct H as [H | [H | [H | []]]]; congruence.
Qed.

(** X17: Dismissing the one alert that carries an identifier lowers the count of
    that alert's type by one and leaves the counts of the other types as
    they were. *)
Theorem focus_after_dismiss :
  forall alertId w l1 a l2 ty,
    alerts (view w) = l1 ++ a :: l2 ->
    alert_Id a = alertId ->
    (forall b, In b (l1 ++ l2) -> alert_Id b <> alertId) ->
    focusCount ty (alerts (view w))
    = focusCount ty (alerts (view (exec (handleDismissAlert alertId (Fulfilled tt)) w)))
      + (if String.eqb (alert_type a) ty then 1 else 0).
Proof.
  intros alertId w l1 a l2 ty Hl Ha Hothers.
  rewrite dismiss_alerts, Hl.
  rewrite (leave_out_the_one (has_Id alertId) (has_Id_dec alertId) l1 l2 a Ha Hothers).
  rewrite !focusCount_app, focusCount_cons. lia.
Qed.

Lemma focus_after_dismiss_witness :
  let a := mkAlert (IdNum 3) "task_due_today" (Some (IdNum 7)) in
  let l1 := [mkAlert (IdNum 1) "task_overdue" (Some (IdNum 7));
             mkAlert (IdNum 2) "contact_follow_up" None] in
  let l2 := [mkAlert (IdStr "1") "task_due_today" (Some (IdNum 8))] in
  alerts (view sample_world) = l1 ++ a :: l2 /\
  alert_Id a = IdNum 3 /\
  (forall b, In b (l1 ++ l2) -> alert_Id b <> IdNum 3) /\
  focusCount "task_due_today" (alerts (view sample_world))
  = focusCount "task_due_today"
      (alerts (view (exec (handleDismissAlert (IdNum 3) (Fulfilled tt)) sample_world)))
    + 1.
Proof.
  intros a l1 l2.
  assert (H : forall b, In b (l1 ++ l2) -> alert_Id b <> IdNum 3).
  { cbn. intros b [<- | [<- | [<- | []]]]; cbn; discriminate. }
  split; [reflexivity|]. split; [reflexivity|]. split; [exact H|].
  exact (focus_after_dismiss (IdNum 3) sample_world l1 a l2 "task_due_today"
           eq_refl eq_refl H).
Defined.

(** ** Accounting over sequences of operations *)

(** What each operation adds to the trace. *)
Lemma run_op_trace (w : World) (op : Op) :
  exists added,
    trace (run_op w op) = trace w ++ added /\
    toasts added = (if op_is_action op then 1 else 0) /\
    console_errors added = (if op_fails op then 1 else 0) /\
    Forall (fun c => calls c added = if op_calls_loader op then 1 else 0) read_calls.
Proof.
  destruct op as [| rs | alertId [[] | t reason] | taskId [[] | t reason]];
    cbn [run_op op_is_action op_fails op_calls_loader is_rejected negb]; unfold exec.
  - rewrite call_runs. eexists. split; [reflexivity|].
    repeat split; repeat constructor.
  - destruct (reads_cases rs) as [H | (c & d & tk & a & al & ->)].
    + destruct (Promise_all_rejected rs H) as (t & reason & Hrej).
      rewrite (resume_rejected rs t reason _ Hrej), H.
      eexists. split; [reflexivity|]. repeat split; repeat constructor.
    + rewrite resume_fulfilled.
      eexists. split; [reflexivity|]. repeat split; repeat constructor.
  - rewrite dismiss_fulfilled.
    eexists. split; [reflexivity|]. repeat split; repeat constructor.
  - rewrite dismiss_rejected.
    eexists. split; [reflexivity|]. repeat split; repeat constructor.
  - rewrite complete_fulfilled.
    eexists. split; [reflexivity|]. repeat split; repeat constructor.
  - rewrite complete_rejected.
    eexists. split; [reflexivity|]. repeat split; repeat constructor.
Qed.

Lemma toasts_app (l1 l2 : list Effect) : toasts (l1 ++ l2) = toasts l1 + toasts l2.
Proof. unfold toasts. now rewrite filter_app, length_app. Qed.

Lemma console_errors_app (l1 l2 : list Effect) :
  console_errors (l1 ++ l2) = console_errors l1 + console_errors l2.
Proof. unfold console_errors. now rewrite filter_app, length_app. Qed.

Lemma count_ops_cons (p : Op -> bool) (op : Op) (ops : list Op) :
  count_ops p (op :: ops) = (if p op then 1 else 0) + count_ops p ops.
Proof. unfold count_ops. cbn [filter]. now destruct (p op). Qed.

(** X18: Every dismissal and every task completion shows exactly one toast,
    whichever way it ends, and the loader shows none: over any sequence of
    operations the number of toasts grows by the number of actions. *)
Theorem one_toast_per_action :
  forall ops w,
    toasts (trace (run_ops ops w)) = toasts (trace w) + count_ops op_is_action ops.
Proof.
  induction ops as [| op ops IH]; intro w.
  - cbn. lia.
  - cbn [run_ops fold_left]. fold (run_ops ops (run_op w op)). rewrite IH.
    destruct (run_op_trace w op) as (added & -> & Ht & _).
    rewrite toasts_app, Ht, count_ops_cons. lia.
Qed.

(** X19: Diagnostics are logged exactly on the failure paths: over any sequence
    of operations the number of console errors grows by the number of
    loads, dismissals and completions that failed. *)
Theorem one_console_error_per_failure :
  forall ops w,
    console_errors (trace (run_ops ops w))
    = console_errors (trace w) + count_ops op_fails ops.
Proof.
  induction ops as [| op ops IH]; intro w.
  - cbn. lia.
  - cbn [run_ops fold_left]. fold (run_ops ops (run_op w op)). rewrite IH.
    destruct (run_op_trace w op) as (added & -> & _ & Hc & _).
    rewrite console_errors_app, Hc, count_ops_cons. lia.
Qed.

(** X20: The five reads are issued only by calls of the loader, once each per
    call: over any sequence of operations the number of calls of each read
    grows by the number of explicit loader calls plus the number of
    successful task completions.  Dismissals and failed completions issue
    none, and overlapping loads are not merged. *)
Theorem reads_issued_once_per_loader_call :
  forall ops w,
    Forall (fun c =>
              calls c (trace (run_ops ops w))
              = calls c (trace w) + count_ops op_calls_loader ops)
           read_calls.
Proof.
  induction ops as [| op ops IH]; intro w.
  - cbn [run_ops fold_left]. apply Forall_forall. intros c _. cbn. lia.
  - cbn [run_ops fold_left]. fold (run_ops ops (run_op w op)).
    specialize (IH (run_op w op)).
    destruct (run_op_trace w op) as (added & Hadd & _ & _ & Hr).
    rewrite Forall_forall in *. intros c Hc.
    rewrite (IH c Hc), Hadd, calls_app, (Hr c Hc), count_ops_cons. lia.
Qed.

(** ** Invariants of the view *)

Lemma run_op_error (w : World) (op : Op) :
  error (view (run_op w op)) = error (view w) \/
  error (view (run_op w op)) = "" \/
  error (view (run_op w op)) = "Failed to load dashboard data".
Proof.
  destruct op as [| rs | alertId [[] | t reason] | taskId [[] | t reason]];
    cbn [run_op]; unfold exec.
  - rewrite call_runs. right. now left.
  - destruct (reads_cases rs) as [H | (c & d & tk & a & al & ->)].
    + destruct (Promise_all_rejected rs H) as (t & reason & Hrej).
      rewrite (resume_rejected rs t reason _ Hrej). right. now right.
    + rewrite resume_fulfilled. now left.
  - rewrite dismiss_fulfilled. now left.
  - rewrite dismiss_rejected. now left.
  - rewrite complete_fulfilled. right. now left.
  - rewrite complete_rejected. now left.
Qed.

Lemma run_ops_error (ops : list Op) (w : World) :
  error (view w) = "" \/ error (view w) = "Failed to load dashboard data" ->
  error (view (run_ops ops w)) = "" \/
  error (view (run_ops ops w)) = "Failed to load dashboard data".
Proof.
  revert w. induction ops as [| op ops IH]; intros w H; [exact H|].
  cbn [run_ops fold_left]. apply IH.
  destruct (run_op_error w op) as [-> | H']; assumption.
Qed.

(** X21: The error message only ever takes two values: after any sequence of
    operations on a freshly mounted component it is empty or the one
    generic message; so whenever the error view is shown it shows that
    message, with the loader as its retry handler. *)
Theorem error_is_generic :
  forall ops,
    let v := view (run_ops ops initialWorld) in
    (error v = "" \/ error v = "Failed to load dashboard data") /\
    forall message onRetry,
      render v = Error message onRetry ->
      message = "Failed to load dashboard data" /\ onRetry = loadDashboardData.
Proof.
  intros ops v.
  assert (H : error v = "" \/ error v = "Failed to load dashboard data").
  { apply run_ops_error. now left. }
  split; [exact H|].
  intros message onRetry. unfold render.
  destruct (isLoading v); [discriminate|].
  destruct H as [E | E]; rewrite E; cbn; [discriminate|].
  intros [= <- <-]. now split.
Qed.

Lemma error_is_generic_witness :
  let ops :=
    [OpLoadCall;
     OpLoadResume (mkReads (Rejected 0 "offline") (Fulfilled []) (Fulfilled [])
                           (Fulfilled []) (Fulfilled []))] in
  render (view (run_ops ops initialWorld))
  = Error "Failed to load dashboard data" loadDashboardData /\
  "Failed to load dashboard data" = "Failed to load dashboard data" /\
  loadDashboardData = loadDashboardData.
Proof.
  intro ops. split; [reflexivity|].
  exact (proj2 (error_is_generic ops) _ _ eq_refl).
Defined.

Lemma firstn_sorted {A} (R : A -> A -> Prop) (n : nat) (l : list A) :
  StronglySorted R l -> StronglySorted R (firstn n l).
Proof.
  intro H. rewrite <- (firstn_skipn n l) in H.
  now apply StronglySorted_app_inv in H.
Qed.

Lemma run_op_sorted (w : World) (op : Op) :
  StronglySorted not_earlier (recentActivities (view w)) ->
  StronglySorted not_earlier (recentActivities (view (run_op w op))).
Proof.
  intro H. destruct op as [| rs | alertId [[] | t reason] | taskId [[] | t reason]];
    cbn [run_op].
  - unfold exec. now rewrite call_runs.
  - destruct (resume_recentActivities rs w) as [-> | (a & _ & ->)]; [exact H|].
    apply firstn_sorted, Array_sort_sorted.
  - unfold exec. now rewrite dismiss_fulfilled.
  - unfold exec. now rewrite dismiss_rejected.
  - unfold exec. now rewrite complete_fulfilled.
  - unfold exec. now rewrite complete_rejected.
Qed.

(** X22: After any sequence of operations on a freshly mounted component the
    recent activities are in order, latest first. *)
Theorem recent_activities_always_sorted :
  forall ops,
    StronglySorted not_earlier (recentActivities (view (run_ops ops initialWorld))).
Proof.
  intro ops.
  assert (G : forall w, StronglySorted not_earlier (recentActivities (view w)) ->
                        StronglySorted not_earlier
                          (recentActivities (view (run_ops ops w)))).
  { induction ops as [| op ops IH]; intros w H; [exact H|].
    cbn [run_ops fold_left]. apply IH. now apply run_op_sorted. }
  apply G. constructor.
Qed.

(** ** The reason a failed load logs *)

Lemma settles_as_rejection {A} (p : outcome A) : settles_as p (rejection p).
Proof.
  destruct p as [v | t reason]; cbn; [reflexivity|].
  split; [now left|]. intros x [<- | []]. cbn. lia.
Qed.

Lemma settles_as_join {A B} (p : outcome A) (q : outcome B) l1 l2 :
  settles_as p l1 -> settles_as q l2 -> settles_as (join p q) (l1 ++ l2).
Proof.
  destruct p as [a | t1 e1], q as [b | t2 e2]; cbn [settles_as join].
  - intros -> ->. reflexivity.
  - intros -> [Hin Hmin]. cbn [app]. now split.
  - intros [Hin Hmin] ->. rewrite app_nil_r. now split.
  - intros [Hin1 Hmin1] [Hin2 Hmin2].
    destruct (t1 <=? t2)%nat eqn:E; cbn [settles_as].
    + apply Nat.leb_le in E. split; [apply in_or_app; now left|].
      intros x Hx. apply in_app_or in Hx as [Hx | Hx].
      * now apply Hmin1.
      * specialize (Hmin2 x Hx). lia.
    + apply Nat.leb_gt in E. split; [apply in_or_app; now right|].
      intros x Hx. apply in_app_or in Hx as [Hx | Hx].
      * specialize (Hmin1 x Hx). lia.
      * now apply Hmin2.
Qed.

Lemma Promise_all_settles (rs : Reads) : settles_as (Promise_all rs) (rejections rs).
Proof.
  unfold Promise_all, rejections. rewrite !app_assoc.
  repeat apply settles_as_join; apply settles_as_rejection.
Qed.

(** X23: When some read rejects, the reason the loader logs is the reason of one
    of the rejected reads, one that no other rejection precedes; nothing
    is logged for the other rejections. *)
Theorem load_logs_earliest_rejection :
  forall rs w,
    some_read_rejects rs = true ->
    exists t reason,
      In (t, reason) (rejections rs) /\
      (forall t' reason', In (t', reason') (rejections rs) -> t <= t') /\
      trace (exec (loadDashboardData_resume rs) w) = trace w ++ failure_suffix reason.
Proof.
  intros rs w H.
  destruct (Promise_all_rejected rs H) as (t & reason & Hrej).
  pose proof (Promise_all_settles rs) as S. rewrite Hrej in S.
  destruct S as [Hin Hmin].
  exists t, reason. split; [exact Hin|]. split.
  - intros t' reason' Hin'. exact (Hmin _ Hin').
  - unfold exec. now rewrite (resume_rejected rs t reason w Hrej).
Qed.

Lemma load_logs_earliest_rejection_witness :
  let rs := mkReads (Rejected 5 "contacts down") (Fulfilled [])
                    (Rejected 2 "tasks down") (Fulfilled [])
                    (Rejected 9 "alerts down") in
  some_read_rejects rs = true /\
  exists t reason,
    In (t, reason) (rejections rs) /\
    (forall t' reason', In (t', reason') (rejections rs) -> t <= t') /\
    trace (exec (loadDashboardData_resume rs) initialWorld)
    = trace initialWorld ++ failure_suffix reason.
Proof.
  intro rs. split; [reflexivity|].
  exact (load_logs_earliest_rejection rs initialWorld eq_refl).
Defined.

(** ** Containment of failures *)

(** X24: None of the three asynchronous functions lets a failure escape: however
    the reads or the service call settle, the loader, the dismissal and
    the task completion all complete normally, so the promises they
    return, which no caller awaits, are never rejected. *)
Theorem failures_never_escape :
  forall w,
    (forall rs, completion (loadDashboardData rs) w = Normal tt) /\
    (forall alertId settled,
        completion (handleDismissAlert alertId settled) w = Normal tt) /\
    (forall taskId settled,
        completion (handleCompleteTask taskId settled) w = Normal tt).
Proof.
  intro w. unfold completion. split; [|split].
  - intro rs. rewrite load_steps.
    destruct (reads_cases rs) as [H | (c & d & tk & a & al & ->)].
    + destruct (Promise_all_rejected rs H) as (t & reason & Hrej).
      now rewrite (resume_rejected rs t reason _ Hrej).
    + now rewrite resume_fulfilled.
  - intros alertId [[] | t reason].
    + now rewrite dismiss_fulfilled.
    + now rewrite dismiss_rejected.
  - intros taskId [[] | t reason].
    + now rewrite complete_fulfilled.
    + now rewrite complete_rejected.
Qed.
